(** * extrainterpreters: the [Interpreter] worker over a shared memory map

    A shallow embedding of [src/extrainterpreters/extrainterpreters.py]:
    the controller-side [Interpreter] object, the 10 MB memory map it
    shares with its sub-interpreter, and the receiving-side routines that
    [_init_interpreter] installs there.

    Python statements become computations in a state-and-exception monad
    over the object's attributes and the process environment; attribute
    mutations survive a raised exception, as they do in Python. *)

From Stdlib Require Import ZArith List Lia Bool.
From Stdlib Require Import Strings.Byte.
From stdpp Require Import base gmap strings list.

Local Open Scope Z_scope.

(** ** Module constants (source lines 27-30) *)

Definition BFSZ : Z := 10000000.
Definition RET_OFFSET : Z := 8000000.
Definition PAYLOAD_BUFFER : Z := RET_OFFSET.
Definition RETURN_BUFFER : Z := BFSZ - RET_OFFSET.

(** ** Exceptions *)

Inductive exn : Type :=
| RuntimeError (msg : string)
| ValueError (msg : string)
| TypeError (msg : string)
| AttributeError (attr : string)
| NameError (name : string)
| IndexError
| KeyError
| FileNotFoundError
| OSError
| PicklingError
| UnpicklingError
| AssertionError
| RunFailedError (msg : string)
| UserError (cls : string).

(** The outcome of a Python call: a value, or a raised exception. *)
Inductive res (A : Type) : Type :=
| Ok (a : A)
| Raise (e : exn).
Arguments Ok {A} a.
Arguments Raise {A} e.

(** The class name shown in the text of a [RunFailedError]. *)
Definition exn_name (e : exn) : string :=
  match e with
  | RuntimeError _ => "RuntimeError"
  | ValueError _ => "ValueError"
  | TypeError _ => "TypeError"
  | AttributeError _ => "AttributeError"
  | NameError _ => "NameError"
  | IndexError => "IndexError"
  | KeyError => "KeyError"
  | FileNotFoundError => "FileNotFoundError"
  | OSError => "OSError"
  | PicklingError => "PicklingError"
  | UnpicklingError => "UnpicklingError"
  | AssertionError => "AssertionError"
  | RunFailedError _ => "RunFailedError"
  | UserError cls => cls
  end.

(** ** Python objects crossing the channel

    The callables, argument tuples and results are arbitrary Python
    objects, and [pickle] is the standard library's.  The embedding takes
    them through this interface: the attributes the source reads
    ([__module__], [__name__], [hash], [isinstance]), [inspect.getsource],
    the call of [f] on [args] and [kw], and a pickler whose stream is
    self-delimiting (one [dump] may issue several [write]s). *)

Inductive Kind : Type := KFunction | KModule | KOther.

Class Python (Obj : Type) : Type := {
  obj_module : Obj -> option string;
  obj_name : Obj -> string;
  obj_hash : Obj -> Z;
  obj_kind : Obj -> Kind;
  obj_truthy : Obj -> bool;
  empty_dict : Obj;
  getsource : Obj -> res string;
  call : Obj -> Obj -> Obj -> res Obj;
  pickle_dump : Obj -> option (list (list byte));
  pickle_load : list byte -> option (Obj * nat);
  pickle_load_dump : forall (o : Obj) (chunks : list (list byte)) (rest : list byte),
      pickle_dump o = Some chunks ->
      pickle_load (concat chunks ++ rest) = Some (o, length (concat chunks))
}.

(** ** Code sent to the sub-interpreter

    [interpreters.run_string] receives text; the source builds six
    shapes of it, one constructor each. *)

Inductive Code : Type :=
| CodeInit (fileno : nat)
    (* the block of _init_interpreter: maps fileno as _m, defines _thaw, _call, _exit *)
| CodeCall (ind_data : Z)
    (* "_call(0)" *)
| CodeSource (source : string)
    (* inspect.getsource(func), run at the worker's top level *)
| CodeImport (mod_name : string)
    (* f"import {mod_name}" *)
| CodeGetattr (name : string) (mod_name : option string) (attr : string)
    (* f"{name} = getattr({mod_name}, '{obj.__name__}')" *)
| CodeAlias (name : string) (mod_name : string).
    (* f"{name} = {mod_name}" *)

(** ** The object's attributes and the process environment *)

(** [self.intno]: [None] from [__init__], the id from [interpreters.create],
    [False] once closed. *)
Inductive IntNo : Type := IdNone | IdFalse | IdNum (n : nat).

(** An attribute that [__init__] does not set is missing until assigned. *)
Inductive attr (A : Type) : Type :=
| Unset
| Bound (a : A).
Arguments Unset {A}.
Arguments Bound {A} a.

(** The controller's [mmap] object: its cursor and whether it was closed.
    The bytes are the backing file's, kept in the environment. *)
Record Mmap : Type := { mm_pos : Z; mm_closed : bool }.

Record FileObj : Type := { f_name : nat; f_closed : bool }.

(** Values of the [_source_handled] dict: [hash(func)] or the string "module". *)
Inductive CacheVal : Type := CHash (h : Z) | CModule.

Record Interpreter : Type := {
  obj_id : nat;
  intno : IntNo;
  fname : attr nat;
  file : attr FileObj;
  fileno : attr nat;
  map : attr (option Mmap);
  thread : attr (option nat);
  source_handled : attr (gmap string CacheVal);
  exception : attr exn
}.

(** What the process did to its collaborators, in order. *)
Inductive Event : Type :=
| EvCreate (id : nat)
| EvDestroy (i : IntNo)
| EvRun (i : IntNo) (c : Code)
| EvUnlink (f : nat)
| EvStderr
| EvRenameMain.

Record World (Obj : Type) : Type := {
  w_next_id : nat;
  w_live : gset nat;
  w_running : gset nat;
  w_ready : gset nat;
  w_next_file : nat;
  w_files : gset nat;
  w_shm : Z -> byte;
  w_registry : gset nat;
  w_main_file : option string;
  w_main_globals : list (string * Obj);
  w_reimport : string -> string -> res Obj;
  w_remote_exec : Code -> option string;
  w_trace : list Event
}.
Arguments w_next_id {Obj} _.
Arguments w_live {Obj} _.
Arguments w_running {Obj} _.
Arguments w_ready {Obj} _.
Arguments w_next_file {Obj} _.
Arguments w_files {Obj} _.
Arguments w_shm {Obj} _.
Arguments w_registry {Obj} _.
Arguments w_main_file {Obj} _.
Arguments w_main_globals {Obj} _.
Arguments w_reimport {Obj} _.
Arguments w_remote_exec {Obj} _.
Arguments w_trace {Obj} _.

Record St (Obj : Type) : Type := { self : Interpreter; world : World Obj }.
Arguments self {Obj} _.
Arguments world {Obj} _.
Arguments Build_St {Obj} _ _.

(** Attribute and environment updates, one per assigned field. *)

Definition set_intno (v : IntNo) (s : Interpreter) : Interpreter :=
  {| obj_id := obj_id s; intno := v; fname := fname s; file := file s;
     fileno := fileno s; map := map s; thread := thread s;
     source_handled := source_handled s; exception := exception s |}.

Definition set_fname (v : attr nat) (s : Interpreter) : Interpreter :=
  {| obj_id := obj_id s; intno := intno s; fname := v; file := file s;
     fileno := fileno s; map := map s; thread := thread s;
     source_handled := source_handled s; exception := exception s |}.

Definition set_file (v : attr FileObj) (s : Interpreter) : Interpreter :=
  {| obj_id := obj_id s; intno := intno s; fname := fname s; file := v;
     fileno := fileno s; map := map s; thread := thread s;
     source_handled := source_handled s; exception := exception s |}.

Definition set_fileno (v : attr nat) (s : Interpreter) : Interpreter :=
  {| obj_id := obj_id s; intno := intno s; fname := fname s; file := file s;
     fileno := v; map := map s; thread := thread s;
     source_handled := source_handled s; exception := exception s |}.

Definition set_map (v : attr (option Mmap)) (s : Interpreter) : Interpreter :=
  {| obj_id := obj_id s; intno := intno s; fname := fname s; file := file s;
     fileno := fileno s; map := v; thread := thread s;
     source_handled := source_handled s; exception := exception s |}.

Definition set_thread (v : attr (option nat)) (s : Interpreter) : Interpreter :=
  {| obj_id := obj_id s; intno := intno s; fname := fname s; file := file s;
     fileno := fileno s; map := map s; thread := v;
     source_handled := source_handled s; exception := exception s |}.

Definition set_source_handled (v : attr (gmap string CacheVal))
    (s : Interpreter) : Interpreter :=
  {| obj_id := obj_id s; intno := intno s; fname := fname s; file := file s;
     fileno := fileno s; map := map s; thread := thread s;
     source_handled := v; exception := exception s |}.

Definition set_exception (v : attr exn) (s : Interpreter) : Interpreter :=
  {| obj_id := obj_id s; intno := intno s; fname := fname s; file := file s;
     fileno := fileno s; map := map s; thread := thread s;
     source_handled := source_handled s; exception := v |}.

Section WorldUpdates.
Context {Obj : Type}.

Definition set_interps (next : nat) (live running ready : gset nat)
    (w : World Obj) : World Obj :=
  {| w_next_id := next; w_live := live; w_running := running;
     w_ready := ready; w_next_file := w_next_file w; w_files := w_files w;
     w_shm := w_shm w; w_registry := w_registry w;
     w_main_file := w_main_file w; w_main_globals := w_main_globals w;
     w_reimport := w_reimport w; w_remote_exec := w_remote_exec w;
     w_trace := w_trace w |}.

Definition set_files (next : nat) (files : gset nat) (w : World Obj) : World Obj :=
  {| w_next_id := w_next_id w; w_live := w_live w; w_running := w_running w;
     w_ready := w_ready w; w_next_file := next; w_files := files;
     w_shm := w_shm w; w_registry := w_registry w;
     w_main_file := w_main_file w; w_main_globals := w_main_globals w;
     w_reimport := w_reimport w; w_remote_exec := w_remote_exec w;
     w_trace := w_trace w |}.

Definition set_shm (shm : Z -> byte) (w : World Obj) : World Obj :=
  {| w_next_id := w_next_id w; w_live := w_live w; w_running := w_running w;
     w_ready := w_ready w; w_next_file := w_next_file w; w_files := w_files w;
     w_shm := shm; w_registry := w_registry w;
     w_main_file := w_main_file w; w_main_globals := w_main_globals w;
     w_reimport := w_reimport w; w_remote_exec := w_remote_exec w;
     w_trace := w_trace w |}.

Definition set_registry (r : gset nat) (w : World Obj) : World Obj :=
  {| w_next_id := w_next_id w; w_live := w_live w; w_running := w_running w;
     w_ready := w_ready w; w_next_file := w_next_file w; w_files := w_files w;
     w_shm := w_shm w; w_registry := r;
     w_main_file := w_main_file w; w_main_globals := w_main_globals w;
     w_reimport := w_reimport w; w_remote_exec := w_remote_exec w;
     w_trace := w_trace w |}.

Definition set_trace (t : list Event) (w : World Obj) : World Obj :=
  {| w_next_id := w_next_id w; w_live := w_live w; w_running := w_running w;
     w_ready := w_ready w; w_next_file := w_next_file w; w_files := w_files w;
     w_shm := w_shm w; w_registry := w_registry w;
     w_main_file := w_main_file w; w_main_globals := w_main_globals w;
     w_reimport := w_reimport w; w_remote_exec := w_remote_exec w;
     w_trace := t |}.
End WorldUpdates.

(** ** The shared bytes

    Both [mmap] objects are views of the same [BFSZ] bytes.  [write] at a
    cursor refuses data that would pass the end and writes nothing then
    (Python's "data out of range" [ValueError]). *)

Definition shm_store (shm : Z -> byte) (pos : Z) (bs : list byte) : Z -> byte :=
  fun i =>
    if (pos <=? i) && (i <? pos + Z.of_nat (length bs))
    then nth (Z.to_nat (i - pos)) bs x00
    else shm i.

Definition buf_write (shm : Z -> byte) (pos : Z) (bs : list byte)
    : option ((Z -> byte) * Z) :=
  if BFSZ <? pos + Z.of_nat (length bs) then None
  else Some (shm_store shm pos bs, pos + Z.of_nat (length bs)).

(** The [write]s of one [pickle.dump]; the flag is [false] when one of them
    was refused, and the earlier ones stay written. *)
Fixpoint buf_write_chunks (shm : Z -> byte) (pos : Z) (chunks : list (list byte))
    : bool * (Z -> byte) * Z :=
  match chunks with
  | [] => (true, shm, pos)
  | c :: rest =>
      match buf_write shm pos c with
      | None => (false, shm, pos)
      | Some (shm', pos') => buf_write_chunks shm' pos' rest
      end
  end.

(** The bytes a reader sees from a cursor to the end of the map. *)
Definition shm_view (shm : Z -> byte) (pos : Z) : list byte :=
  List.map (fun i => shm (pos + Z.of_nat i)) (seq 0 (Z.to_nat (BFSZ - pos))).

(** ** The state-and-exception monad of the controller *)

Definition M (Obj A : Type) : Type := St Obj -> res A * St Obj.

Definition ret {Obj A} (a : A) : M Obj A := fun st => (Ok a, st).

Definition raise {Obj A} (e : exn) : M Obj A := fun st => (Raise e, st).

Definition bind {Obj A B} (c : M Obj A) (k : A -> M Obj B) : M Obj B :=
  fun st =>
    match c st with
    | (Ok a, st') => k a st'
    | (Raise e, st') => (Raise e, st')
    end.

Notation "'let!' x ':=' c 'in' k" := (bind c (fun x => k))
  (at level 10, x name, c at level 100, k at level 200).
Notation "c '>>' k" := (bind c (fun _ => k))
  (at level 100, k at level 200, right associativity).

(** [try: c  except <classes accepted by h>: handler]. *)
Definition try_except {Obj A} (c : M Obj A) (h : exn -> option (M Obj A)) : M Obj A :=
  fun st =>
    match c st with
    | (Ok a, st') => (Ok a, st')
    | (Raise e, st') =>
        match h e with
        | Some k => k st'
        | None => (Raise e, st')
        end
    end.

(** [try: c  finally: f]; an exception of [f] replaces the outcome of [c]. *)
Definition try_finally {Obj A} (c : M Obj A) (f : M Obj unit) : M Obj A :=
  fun st =>
    match c st with
    | (r, st') =>
        match f st' with
        | (Ok _, st'') => (r, st'')
        | (Raise e, st'') => (Raise e, st'')
        end
    end.

Definition get {Obj A} (f : St Obj -> A) : M Obj A := fun st => (Ok (f st), st).

Definition modify_self {Obj} (f : Interpreter -> Interpreter) : M Obj unit :=
  fun st => (Ok tt, Build_St (f (self st)) (world st)).

Definition modify_world {Obj} (f : World Obj -> World Obj) : M Obj unit :=
  fun st => (Ok tt, Build_St (self st) (f (world st))).

(** Reading [self.<name>]: [AttributeError] while the attribute is missing. *)
Definition getattr {Obj A} (name : string) (f : Interpreter -> attr A) : M Obj A :=
  fun st =>
    match f (self st) with
    | Unset => (Raise (AttributeError name), st)
    | Bound a => (Ok a, st)
    end.

Definition log {Obj} (e : Event) : M Obj unit :=
  modify_world (fun w => set_trace (w_trace w ++ [e]) w).

Section Model.
Context {Obj : Type} `{Python Obj}.

(** *** [mmap] methods on [self.map] *)

(** [self.map] as an open mmap; [on_none] is what the operation raises on
    [None], a closed mmap raises [ValueError]. *)
Definition live_map (on_none : exn) : M Obj Mmap :=
  let! mo := getattr "map" map in
  match mo with
  | None => raise on_none
  | Some m =>
      if mm_closed m then raise (ValueError "mmap closed or invalid")
      else ret m
  end.

Definition map_getitem (i : Z) : M Obj byte :=
  let! m := live_map (TypeError "'NoneType' object is not subscriptable") in
  if (0 <=? i) && (i <? BFSZ) then get (fun st => w_shm (world st) i)
  else raise IndexError.

Definition map_setitem (i : Z) (b : byte) : M Obj unit :=
  let! m := live_map (TypeError "'NoneType' object does not support item assignment") in
  if (0 <=? i) && (i <? BFSZ)
  then modify_world (fun w => set_shm (fun j => if j =? i then b else w_shm w j) w)
  else raise IndexError.

Definition map_seek (p : Z) : M Obj unit :=
  let! m := live_map (AttributeError "seek") in
  if (0 <=? p) && (p <=? BFSZ)
  then modify_self (set_map (Bound (Some {| mm_pos := p; mm_closed := false |})))
  else raise (ValueError "seek out of range").

Definition map_tell : M Obj Z :=
  let! m := live_map (AttributeError "tell") in
  ret (mm_pos m).

Definition map_close : M Obj unit :=
  let! mo := getattr "map" map in
  match mo with
  | None => raise (AttributeError "close")
  | Some m => modify_self (set_map (Bound (Some {| mm_pos := mm_pos m; mm_closed := true |})))
  end.

(** [pickle.dump(obj, self.map)]. *)
Definition pickle_dump_map (o : Obj) : M Obj unit :=
  let! mo := getattr "map" map in
  match mo with
  | None => raise (TypeError "file must have a 'write' attribute")
  | Some m =>
      match pickle_dump o with
      | None => raise PicklingError
      | Some chunks =>
          if mm_closed m then raise (ValueError "mmap closed or invalid")
          else
            let! shm := get (fun st => w_shm (world st)) in
            match buf_write_chunks shm (mm_pos m) chunks with
            | (ok, shm', pos') =>
                modify_world (set_shm shm') >>
                modify_self (set_map (Bound (Some {| mm_pos := pos'; mm_closed := false |}))) >>
                if ok then ret tt else raise (ValueError "data out of range")
            end
      end
  end.

(** [pickle.load(self.map)]. *)
Definition pickle_load_map : M Obj Obj :=
  let! m := live_map (TypeError "file must have 'read' and 'readline' attributes") in
  let! shm := get (fun st => w_shm (world st)) in
  match pickle_load (shm_view shm (mm_pos m)) with
  | None => raise UnpicklingError
  | Some (o, n) =>
      modify_self (set_map (Bound (Some {| mm_pos := mm_pos m + Z.of_nat n; mm_closed := false |}))) >>
      ret o
  end.

(** *** The receiving side

    What the text of [_init_interpreter] defines in the worker: [_thaw]
    reads three consecutive pickles from [ind_data], [_call] runs the
    callable and pickles the result at [RET_OFFSET].  The worker's [_m]
    has a cursor of its own, set by [seek] before each use. *)

Definition _thaw (shm : Z -> byte) (ind_data : Z) : res (Obj * Obj * Obj) :=
  if negb ((0 <=? ind_data) && (ind_data <=? BFSZ))
  then Raise (ValueError "seek out of range")
  else
    match pickle_load (shm_view shm ind_data) with
    | None => Raise UnpicklingError
    | Some (func, n1) =>
        match pickle_load (shm_view shm (ind_data + Z.of_nat n1)) with
        | None => Raise UnpicklingError
        | Some (args, n2) =>
            match pickle_load (shm_view shm (ind_data + Z.of_nat n1 + Z.of_nat n2)) with
            | None => Raise UnpicklingError
            | Some (kw, _) => Ok (func, args, kw)
            end
        end
    end.

Definition _call (shm : Z -> byte) (ind_data : Z) : res unit * (Z -> byte) :=
  match _thaw shm ind_data with
  | Raise e => (Raise e, shm)
  | Ok (func, args, kw) =>
      match call func args kw with
      | Raise e => (Raise e, shm)
      | Ok result =>
          match pickle_dump result with
          | None => (Raise PicklingError, shm)
          | Some chunks =>
              match buf_write_chunks shm RET_OFFSET chunks with
              | (true, shm', _) => (Ok tt, shm')
              | (false, shm', _) => (Raise (ValueError "data out of range"), shm')
              end
          end
      end
  end.

(** *** The isolation primitive and the operating system

    [interpreters.create], [destroy] and [run_string], [tempfile.mktemp]
    and [os.unlink], as the source uses them.  [False] is the integer 0,
    the id of the calling interpreter, which can be neither destroyed
    nor run from itself. *)

Definition interpreters_create : M Obj nat :=
  let! w := get world in
  let id := w_next_id w in
  modify_world (set_interps (S id) ({[ id ]} ∪ w_live w) (w_running w) (w_ready w)) >>
  log (EvCreate id) >>
  ret id.

Definition interpreters_destroy (i : IntNo) : M Obj unit :=
  log (EvDestroy i) >>
  match i with
  | IdNone => raise (TypeError "interpreter ID must be an int")
  | IdFalse => raise (RuntimeError "cannot destroy the current interpreter")
  | IdNum n =>
      let! w := get world in
      if negb (bool_decide (n ∈ w_live w))
      then raise (RuntimeError "unrecognized interpreter ID")
      else if bool_decide (n ∈ w_running w)
      then raise (RuntimeError "interpreter running")
      else modify_world (set_interps (w_next_id w) (w_live w ∖ {[ n ]})
                           (w_running w) (w_ready w ∖ {[ n ]}))
  end.

Definition interpreters_run_string (i : IntNo) (c : Code) : M Obj unit :=
  log (EvRun i c) >>
  match i with
  | IdNone => raise (TypeError "interpreter ID must be an int")
  | IdFalse => raise (RuntimeError "interpreter already running")
  | IdNum n =>
      let! w := get world in
      if negb (bool_decide (n ∈ w_live w))
      then raise (RuntimeError "unrecognized interpreter ID")
      else if bool_decide (n ∈ w_running w)
      then raise (RuntimeError "interpreter already running")
      else
        match c with
        | CodeInit _ =>
            modify_world (set_interps (w_next_id w) (w_live w) (w_running w)
                            ({[ n ]} ∪ w_ready w))
        | CodeCall ind_data =>
            if bool_decide (n ∈ w_ready w)
            then
              match _call (w_shm w) ind_data with
              | (Ok _, shm') => modify_world (set_shm shm')
              | (Raise e, shm') =>
                  modify_world (set_shm shm') >> raise (RunFailedError (exn_name e))
              end
            else raise (RunFailedError "NameError")
        | _ =>
            match w_remote_exec w c with
            | None => ret tt
            | Some msg => raise (RunFailedError msg)
            end
        end
  end.

Definition tempfile_mktemp : M Obj nat :=
  get (fun st => w_next_file (world st)).

(** [open(fname, "w+b")] followed by the write of [BFSZ] zero bytes. *)
Definition open_zeroed (f : nat) : M Obj FileObj :=
  modify_world (fun w => set_files (S (w_next_file w)) ({[ f ]} ∪ w_files w) w) >>
  modify_world (set_shm (fun _ => x00)) >>
  ret {| f_name := f; f_closed := false |}.

Definition os_unlink (f : nat) : M Obj unit :=
  log (EvUnlink f) >>
  let! w := get world in
  if bool_decide (f ∈ w_files w)
  then modify_world (set_files (w_next_file w) (w_files w ∖ {[ f ]}))
  else raise FileNotFoundError.

(** [running_interpreters], the module's [WeakSet]. *)
Definition registry_add : M Obj unit :=
  let! me := get (fun st => obj_id (self st)) in
  modify_world (fun w => set_registry ({[ me ]} ∪ w_registry w) w).

Definition registry_remove : M Obj unit :=
  let! me := get (fun st => obj_id (self st)) in
  let! w := get world in
  if bool_decide (me ∈ w_registry w)
  then modify_world (set_registry (w_registry w ∖ {[ me ]}))
  else raise KeyError.

(** ** class Interpreter *)

(** [__init__] (lines 50-52): only [intno] is set; the lock has no state
    in a sequential run. *)
Definition __init__ (me : nat) : Interpreter :=
  {| obj_id := me; intno := IdNone; fname := Unset; file := Unset;
     fileno := Unset; map := Unset; thread := Unset;
     source_handled := Unset; exception := Unset |}.

(** [run_string] (lines 252-257). *)
Definition run_string (code : Code) : M Obj unit :=
  let! i := get (fun st => intno (self st)) in
  interpreters_run_string i code.

(** [_init_interpreter] (lines 97-127). *)
Definition _init_interpreter : M Obj unit :=
  let! fd := getattr "fileno" fileno in
  let! i := get (fun st => intno (self st)) in
  interpreters_run_string i (CodeInit fd).

(** [start] (lines 54-67). *)
Definition start : M Obj unit :=
  let! i := get (fun st => intno (self st)) in
  match i with
  | IdNone =>
      let! id := interpreters_create in
      modify_self (set_intno (IdNum id)) >>
      let! f := tempfile_mktemp in
      modify_self (set_fname (Bound f)) >>
      let! fo := open_zeroed f in
      modify_self (set_file (Bound fo)) >>
      modify_self (set_fileno (Bound f)) >>
      modify_self (set_map (Bound (Some {| mm_pos := 0; mm_closed := false |}))) >>
      modify_self (set_thread (Bound None)) >>
      registry_add >>
      _init_interpreter
  | _ => raise (RuntimeError "Interpreter already started")
  end.

Definition file_close : M Obj unit :=
  let! fo := getattr "file" file in
  modify_self (set_file (Bound {| f_name := f_name fo; f_closed := true |})).

(** [close] (lines 71-93); [close_release] is its lines 79-85.  The
    handler of the last [try] names [keyError], which is bound nowhere:
    matching any exception against it raises [NameError]. *)
Definition close_release : M Obj unit :=
  try_finally (map_close >> file_close)
    (let! f := getattr "fname" fname in os_unlink f) >>
  modify_self (set_map (Bound None)) >>
  modify_self (set_intno IdFalse).

Definition close : M Obj unit :=
  let! i := get (fun st => intno (self st)) in
  try_except (interpreters_destroy i)
    (fun e => match e with RuntimeError _ => Some (raise e) | _ => None end) >>
  close_release >>
  modify_self (set_thread (Bound None)) >>
  try_except registry_remove (fun _ => Some (raise (NameError "keyError"))).

(** [_source_handle] (lines 145-151). *)
Definition _source_handle (func : Obj) : M Obj unit :=
  let! cache := getattr "_source_handled" source_handled in
  let handled :=
    match cache !! obj_name func with
    | Some (CHash h) => obj_hash func =? h
    | Some CModule => false
    | None => false
    end in
  if handled then ret tt
  else
    match getsource func with
    | Raise e => raise e
    | Ok source =>
        run_string (CodeSource source) >>
        let! cache := getattr "_source_handled" source_handled in
        modify_self (set_source_handled
                       (Bound (<[ obj_name func := CHash (obj_hash func) ]> cache)))
    end.

Definition str_truthy (s : string) : bool :=
  match s with EmptyString => false | _ => true end.

(** [_handle_module] (lines 153-162). *)
Definition _handle_module (mod_name : option string) : M Obj unit :=
  match mod_name with
  | None => ret tt
  | Some m =>
      if negb (str_truthy m) then ret tt
      else
        let! cache := getattr "_source_handled" source_handled in
        if bool_decide (m ∈ dom cache) then ret tt
        else
          try_except
            (run_string (CodeImport m) >>
             let! cache := getattr "_source_handled" source_handled in
             modify_self (set_source_handled (Bound (<[ m := CModule ]> cache))))
            (fun e => match e with RunFailedError _ => Some (ret tt) | _ => None end)
  end.

(** One iteration of the loop over [main_globals.items()] (lines 188-200). *)
Definition prepare_binding (func : Obj) (name : string) (obj : Obj) : M Obj unit :=
  match obj_kind obj with
  | KFunction =>
      let mod_name := obj_module obj in
      if bool_decide (mod_name = Some "__main__") then _source_handle obj
      else
        _handle_module mod_name >>
        let! cache := getattr "_source_handled" source_handled in
        if negb (bool_decide (obj_name func ∈ dom cache))
        then run_string (CodeGetattr name mod_name (obj_name obj))
        else ret tt
  | KModule =>
      let mod_name := obj_name obj in
      _handle_module (Some mod_name) >>
      let! cache := getattr "_source_handled" source_handled in
      if negb (bool_decide (mod_name = name)) && negb (bool_decide (name ∈ dom cache))
      then run_string (CodeAlias name mod_name)
      else ret tt
  | KOther => ret tt
  end.

Fixpoint prepare_bindings (func : Obj) (items : list (string * Obj)) : M Obj unit :=
  match items with
  | [] => ret tt
  | (name, obj) :: rest =>
      prepare_binding func name obj >> prepare_bindings func rest
  end.

(** [_prepare_interactive] (lines 164-200). *)
Definition _prepare_interactive (func : Obj) : M Obj unit :=
  if negb (bool_decide (obj_module func = Some "__main__")) then raise AssertionError
  else
    let! me := get self in
    match source_handled me with
    | Unset => modify_self (set_source_handled (Bound ∅))
    | Bound _ => ret tt
    end >>
    _source_handle func >>
    let! main_globals := get (fun st => w_main_globals (world st)) in
    prepare_bindings func main_globals.

(** The text of lines 215-217, after [dedent]. *)
Definition dquote : string := String (Ascii.ascii_of_nat 34) EmptyString.
Definition newline : string := String (Ascii.ascii_of_nat 10) EmptyString.
Definition not_started_msg : string :=
  "Sub-interpreter not initialized. Call " +:+ dquote +:+ ".start()" +:+ dquote
  +:+ " or enter context to make calls." +:+ newline.

(** The text of line 238 is not an f-string: the braces stay as written. *)
Definition payload_msg : string :=
  "Payload to subinterpreter larger than payload buffer {PAYLOAD_BUFFER}. Call cancelled".

(** Lines 219-226: a callable of [__main__] is looked up again in the
    module imported from the script's file, or, without a file, its
    environment is rebuilt in the worker. *)
Definition resolve_main (func : Obj) : M Obj (Obj * bool) :=
  if bool_decide (obj_module func = Some "__main__") then
    let! main_file := get (fun st => w_main_file (world st)) in
    match main_file with
    | Some path =>
        if str_truthy path then
          let! w := get world in
          match w_reimport w path (obj_name func) with
          | Ok func' => ret (func', true)
          | Raise e => raise e
          end
        else _prepare_interactive func >> ret (func, false)
    | None => _prepare_interactive func >> ret (func, false)
    end
  else ret (func, false).

(** The loop of lines 232-238 over [(func, args, kwargs)]. *)
Fixpoint dump_objects (objs : list Obj) : M Obj unit :=
  match objs with
  | [] => ret tt
  | obj :: rest =>
      let! _failed :=
        try_except (pickle_dump_map obj >> ret false)
          (fun e => match e with ValueError _ => Some (ret true) | _ => None end) in
      let! over :=
        if _failed : bool then ret true
        else let! pos := map_tell in ret (BFSZ - RET_OFFSET <=? pos) in
      if over : bool then raise (RuntimeError payload_msg)
      else dump_objects rest
  end.

(** [kwargs or {}] (line 229). *)
Definition kwargs_or_empty (kwargs : option Obj) : Obj :=
  match kwargs with
  | Some kw => if obj_truthy kw then kw else empty_dict
  | None => empty_dict
  end.

(** [execute], lines 214-241: everything before the worker is told to run.
    Line 228 is the comparison [self.map[RET_OFFSET] == 0]; its value is
    dropped. *)
Definition execute_send (func args : Obj) (kwargs : option Obj) : M Obj unit :=
  let! i := get (fun st => intno (self st)) in
  match i with
  | IdNone => raise (RuntimeError not_started_msg)
  | _ =>
      let! resolved := resolve_main func in
      let func := fst resolved in
      let revert_main_name := snd resolved in
      let! flag := map_getitem RET_OFFSET in
      let _compared := Byte.eqb flag x00 in
      let kwargs := kwargs_or_empty kwargs in
      map_seek 0 >>
      dump_objects [func; args; kwargs] >>
      if revert_main_name : bool then log EvRenameMain else ret tt
  end.

(** [execute], lines 243-250: the trigger and its handler. *)
Definition execute_trigger : M Obj unit :=
  let code := CodeCall 0 in
  let! i := get (fun st => intno (self st)) in
  try_except (interpreters_run_string i code)
    (fun error =>
       match error with
       | RunFailedError _ =>
           Some (map_setitem RET_OFFSET x01 >>
                 modify_self (set_exception (Bound error)) >>
                 log EvStderr >>
                 raise error)
       | _ => None
       end).

(** [execute] (lines 204-250). *)
Definition execute (func args : Obj) (kwargs : option Obj) : M Obj unit :=
  execute_send func args kwargs >> execute_trigger.

(** [done] (lines 269-271). *)
Definition done : M Obj bool :=
  let! flag := map_getitem RET_OFFSET in
  ret (negb (Byte.eqb flag x00)).

(** What an attribute read without a call yields, and its truth value:
    line 274 tests [self.done], the bound method, not [self.done()]. *)
Inductive PyValue : Type :=
| PyBool (b : bool)
| PyBoundMethod (name : string).

Definition truth (v : PyValue) : bool :=
  match v with
  | PyBool b => b
  | PyBoundMethod _ => true
  end.

(** [result] (lines 273-281).  [InvalidState] is bound nowhere in the
    module, so the [raise] of line 275 would be a [NameError]. *)
Definition result : M Obj Obj :=
  if negb (truth (PyBoundMethod "done"))
  then raise (NameError "InvalidState")
  else
    map_seek RET_OFFSET >>
    let! result := pickle_load_map in
    let! t := getattr "thread" thread in
    match t with
    | Some _ => modify_self (set_thread (Bound None))
    | None => ret tt
    end >>
    ret result.

(** [run] (lines 129-133). *)
Definition run (func args kwargs : Obj) : M Obj Obj :=
  execute func args (Some kwargs) >> result.

(** [__del__] (lines 286-291): [getattr(self, "intno", None)] is falsy for
    [None], [False] and 0. *)
Definition intno_truthy (i : IntNo) : bool :=
  match i with
  | IdNone | IdFalse => false
  | IdNum n => negb (Nat.eqb n 0)
  end.

Definition __del__ : M Obj unit :=
  let! i := get (fun st => intno (self st)) in
  if intno_truthy i then close else ret tt.

(** [list_all] (lines 294-301): the [WeakSet] itself. *)
Definition list_all : M Obj (gset nat) :=
  get (fun st => w_registry (world st)).

End Model.

(** ** Vocabulary of the statements *)

Section Vocabulary.
Context {Obj : Type} `{Python Obj}.

(** [self.map] is an open mmap whose cursor is at [p]. *)
Definition chan (st : St Obj) (p : Z) : Prop :=
  map (self st) = Bound (Some {| mm_pos := p; mm_closed := false |}).

(** The state with the cursor moved to [p] and the shared bytes [shm]. *)
Definition at_cursor (p : Z) (shm : Z -> byte) (st : St Obj) : St Obj :=
  Build_St (set_map (Bound (Some {| mm_pos := p; mm_closed := false |})) (self st))
           (set_shm shm (world st)).

(** The state in which [execute_send] returns: the one after line 241. *)
Definition sent (b : bool) (p' : Z) (shm' : Z -> byte) (st0 : St Obj) : St Obj :=
  snd ((if b then log EvRenameMain else ret tt) (at_cursor p' shm' st0)).

(** The state after [run_string] has logged the code it was given. *)
Definition logged (i : IntNo) (c : Code) (st : St Obj) : St Obj :=
  Build_St (self st) (set_trace (w_trace (world st) ++ [EvRun i c]) (world st)).

(** The bytes of one pickled object, and of a sequence of them. *)
Definition dumped (o : Obj) : list byte :=
  match pickle_dump o with
  | Some chunks => concat chunks
  | None => []
  end.

Definition stream (objs : list Obj) : list byte := flat_map dumped objs.

(** [pickle.dump] accepts the object. *)
Definition picklable (o : Obj) : Prop := pickle_dump o <> None.

(** The code that [_prepare_interactive] is meant to send: sources,
    imports and module aliases. *)
Definition replication_code (c : Code) : Prop :=
  match c with
  | CodeSource _ | CodeImport _ | CodeAlias _ _ => True
  | _ => False
  end.

Definition replication_event (ev : Event) : Prop :=
  match ev with
  | EvRun _ c => replication_code c
  | _ => False
  end.

(** The keys of [_source_handled] are never removed. *)
Definition cache_le (a b : attr (gmap string CacheVal)) : Prop :=
  match a with
  | Unset => True
  | Bound ca => exists cb, b = Bound cb /\ dom ca ⊆ dom cb
  end.

(** The footprint of replication: of the object only [_source_handled]
    changes; of the environment only the record of what was sent, which
    grows by replication code. *)
Record frame (st st' : St Obj) : Prop := {
  frame_self : self st' = set_source_handled (source_handled (self st')) (self st);
  frame_world : world st' = set_trace (w_trace (world st')) (world st);
  frame_trace :
    exists evs, w_trace (world st') = w_trace (world st) ++ evs
                /\ Forall replication_event evs;
  frame_cache : cache_le (source_handled (self st)) (source_handled (self st'))
}.

(** A computation whose every run stays within the frame. *)
Definition keeps {A} (c : M Obj A) : Prop :=
  forall st r st', c st = (r, st') -> frame st st'.

(** [name] is a key of [_source_handled]. *)
Definition handled (name : string) (st : St Obj) : Prop :=
  exists cache, source_handled (self st) = Bound cache /\ name ∈ dom cache.

(** The worker [n] is started and idle, with its map open and [thread]
    assigned: the state in which [run] is meant to be called. *)
Definition ready (n : nat) (st : St Obj) : Prop :=
  intno (self st) = IdNum n
  /\ n ∈ w_live (world st)
  /\ (n ∉ w_running (world st))
  /\ n ∈ w_ready (world st)
  /\ (exists p, chan st p)
  /\ (exists t, thread (self st) = Bound t).

(** A request the dispatch loop lets through: an importable callable and
    three pickles that end below [BFSZ - RET_OFFSET]. *)
Definition sendable (func args kw : Obj) : Prop :=
  obj_module func <> Some "__main__"
  /\ picklable func /\ picklable args /\ picklable kw
  /\ Z.of_nat (length (stream [func; args; kw])) < BFSZ - RET_OFFSET.

(** [v] pickles into the return region. *)
Definition returnable (v : Obj) : Prop :=
  exists cv, pickle_dump v = Some cv
             /\ RET_OFFSET + Z.of_nat (length (concat cv)) <= BFSZ.

End Vocabulary.

(** ** A small universe of objects

    Small integers, tuples of them, the empty dict, a few functions and a
    module, with a pickler over the opcodes MARK, BININT1, TUPLE,
    EMPTY_DICT and STOP; functions travel by reference, as one tag byte
    after the GLOBAL opcode.  It instantiates [Python] for the examples. *)

Module Toy.

Inductive Fn : Type :=
| FnLen      (* toylib.len: the number of items *)
| FnFirst    (* toylib.first: the first item, IndexError when empty *)
| FnIdent    (* toylib.ident: the argument tuple itself *)
| FnFail     (* toylib.fail: raises ZeroDivisionError *)
| FnMain (name : string) (h : Z).   (* a function typed at the prompt *)

Inductive TObj : Type :=
| TInt (n : byte)
| TTuple (items : list byte)
| TDict
| TFunc (f : Fn)
| TModule (name : string).

Definition fn_module (f : Fn) : string :=
  match f with
  | FnMain _ _ => "__main__"
  | _ => "toylib"
  end.

Definition fn_name (f : Fn) : string :=
  match f with
  | FnLen => "len"
  | FnFirst => "first"
  | FnIdent => "ident"
  | FnFail => "fail"
  | FnMain name _ => name
  end.

Definition t_module (o : TObj) : option string :=
  match o with
  | TFunc f => Some (fn_module f)
  | _ => None
  end.

Definition t_name (o : TObj) : string :=
  match o with
  | TFunc f => fn_name f
  | TModule name => name
  | TInt _ => "int"
  | TTuple _ => "tuple"
  | TDict => "dict"
  end.

Definition t_hash (o : TObj) : Z :=
  match o with
  | TFunc (FnMain _ h) => h
  | TFunc FnLen => 1
  | TFunc FnFirst => 2
  | TFunc FnIdent => 3
  | TFunc FnFail => 4
  | TInt n => Z.of_N (Byte.to_N n)
  | TTuple items => Z.of_nat (length items)
  | TDict => 0
  | TModule _ => 5
  end.

Definition t_kind (o : TObj) : Kind :=
  match o with
  | TFunc _ => KFunction
  | TModule _ => KModule
  | _ => KOther
  end.

Definition t_truthy (o : TObj) : bool :=
  match o with
  | TInt n => negb (Byte.eqb n x00)
  | TTuple [] => false
  | TDict => false
  | _ => true
  end.

Definition t_getsource (o : TObj) : res string :=
  match o with
  | TFunc (FnMain name _) => Ok ("def " +:+ name +:+ "(*a): return {}")
  | TFunc _ => Raise OSError
  | _ => Raise (TypeError "not a module, class, method, function")
  end.

Definition t_call (func args kw : TObj) : res TObj :=
  match func, args with
  | TFunc FnLen, TTuple items =>
      match Byte.of_nat (length items) with
      | Some n => Ok (TInt n)
      | None => Raise (UserError "OverflowError")
      end
  | TFunc FnFirst, TTuple (x :: _) => Ok (TInt x)
  | TFunc FnFirst, TTuple [] => Raise IndexError
  | TFunc FnIdent, _ => Ok args
  | TFunc FnFail, _ => Raise (UserError "ZeroDivisionError")
  | TFunc (FnMain _ _), _ => Ok TDict
  | _, _ => Raise (TypeError "object is not callable")
  end.

(** Opcodes. *)
Definition MARK : byte := x28.
Definition BININT1 : byte := x4b.
Definition TUPLE : byte := x74.
Definition EMPTY_DICT : byte := x7d.
Definition GLOBAL : byte := x63.
Definition STOP : byte := x2e.

Definition fn_tag (f : Fn) : option byte :=
  match f with
  | FnLen => Some x01
  | FnFirst => Some x02
  | FnIdent => Some x03
  | FnFail => Some x04
  | FnMain _ _ => None
  end.

Definition tag_fn (b : byte) : option Fn :=
  if Byte.eqb b x01 then Some FnLen
  else if Byte.eqb b x02 then Some FnFirst
  else if Byte.eqb b x03 then Some FnIdent
  else if Byte.eqb b x04 then Some FnFail
  else None.

Fixpoint dump_items (items : list byte) : list byte :=
  match items with
  | [] => []
  | x :: rest => BININT1 :: x :: dump_items rest
  end.

Definition t_dump (o : TObj) : option (list (list byte)) :=
  match o with
  | TInt n => Some [[BININT1; n; STOP]]
  | TTuple items => Some [[MARK]; dump_items items; [TUPLE; STOP]]
  | TDict => Some [[EMPTY_DICT; STOP]]
  | TFunc f =>
      match fn_tag f with
      | Some t => Some [[GLOBAL; t; STOP]]
      | None => None
      end
  | TModule _ => None
  end.

Fixpoint load_items (l : list byte) : option (list byte * nat) :=
  match l with
  | [] => None
  | op :: rest =>
      if Byte.eqb op TUPLE then
        match rest with
        | s :: _ => if Byte.eqb s STOP then Some ([], 2%nat) else None
        | [] => None
        end
      else if Byte.eqb op BININT1 then
        match rest with
        | x :: rest' =>
            match load_items rest' with
            | Some (xs, n) => Some (x :: xs, S (S n))
            | None => None
            end
        | [] => None
        end
      else None
  end.

Definition t_load (l : list byte) : option (TObj * nat) :=
  match l with
  | [] => None
  | op :: rest =>
      if Byte.eqb op BININT1 then
        match rest with
        | n :: s :: _ => if Byte.eqb s STOP then Some (TInt n, 3%nat) else None
        | _ => None
        end
      else if Byte.eqb op EMPTY_DICT then
        match rest with
        | s :: _ => if Byte.eqb s STOP then Some (TDict, 2%nat) else None
        | _ => None
        end
      else if Byte.eqb op GLOBAL then
        match rest with
        | t :: s :: _ =>
            if Byte.eqb s STOP then
              match tag_fn t with
              | Some f => Some (TFunc f, 3%nat)
              | None => None
              end
            else None
        | _ => None
        end
      else if Byte.eqb op MARK then
        match load_items rest with
        | Some (items, n) => Some (TTuple items, S n)
        | None => None
        end
      else None
  end.

Lemma load_dump_items (items rest : list byte) :
  load_items (dump_items items ++ TUPLE :: STOP :: rest)
  = Some (items, (length (dump_items items) + 2)%nat).
Proof.
  induction items as [|x items IH]; simpl.
  - reflexivity.
  - rewrite IH. reflexivity.
Qed.

Lemma tag_fn_tag (f : Fn) (t : byte) : fn_tag f = Some t -> tag_fn t = Some f.
Proof. destruct f; simpl; intros Ht; inversion Ht; reflexivity. Qed.

Lemma t_load_dump (o : TObj) (chunks : list (list byte)) (rest : list byte) :
  t_dump o = Some chunks ->
  t_load (concat chunks ++ rest) = Some (o, length (concat chunks)).
Proof.
  destruct o as [n|items| |f|name]; simpl; intros Hd.
  - inversion Hd; subst. reflexivity.
  - inversion Hd; subst. simpl.
    rewrite <- app_assoc. simpl.
    rewrite load_dump_items, length_app. reflexivity.
  - inversion Hd; subst. reflexivity.
  - destruct (fn_tag f) as [t|] eqn:Ht; inversion Hd; subst. simpl.
    rewrite (tag_fn_tag _ _ Ht). reflexivity.
  - discriminate.
Qed.

#[global] Instance toy_python : Python TObj := {|
  obj_module := t_module;
  obj_name := t_name;
  obj_hash := t_hash;
  obj_kind := t_kind;
  obj_truthy := t_truthy;
  empty_dict := TDict;
  getsource := t_getsource;
  call := t_call;
  pickle_dump := t_dump;
  pickle_load := t_load;
  pickle_load_dump := t_load_dump
|}.

End Toy.

(** ** A worker of the small universe *)

Module Scenario.
Import Toy.

Definition world0 : World TObj :=
  {| w_next_id := 1; w_live := ∅; w_running := ∅; w_ready := ∅;
     w_next_file := 0; w_files := ∅; w_shm := fun _ => x00; w_registry := ∅;
     w_main_file := None; w_main_globals := [];
     w_reimport := fun _ _ => Raise (UserError "ImportError");
     w_remote_exec := fun _ => None; w_trace := [] |}.

(** [Interpreter()]. *)
Definition fresh : St TObj := Build_St (__init__ 7) world0.

(** The worker after [start()]. *)
Definition started : St TObj :=
  Build_St
    {| obj_id := 7; intno := IdNum 1; fname := Bound 0%nat;
       file := Bound {| f_name := 0; f_closed := false |};
       fileno := Bound 0%nat;
       map := Bound (Some {| mm_pos := 0; mm_closed := false |});
       thread := Bound None; source_handled := Unset; exception := Unset |}
    {| w_next_id := 2; w_live := {[ 1%nat ]} ∪ ∅; w_running := ∅;
       w_ready := {[ 1%nat ]} ∪ ∅;
       w_next_file := 1; w_files := {[ 0%nat ]} ∪ ∅; w_shm := fun _ => x00;
       w_registry := {[ 7%nat ]} ∪ ∅;
       w_main_file := None; w_main_globals := [];
       w_reimport := fun _ _ => Raise (UserError "ImportError");
       w_remote_exec := fun _ => None;
       w_trace := [EvCreate 1; EvRun (IdNum 1) (CodeInit 0)] |}.

(** A tuple of [n] ones. *)
Definition big_tuple (n : nat) : TObj := TTuple (repeat x01 n).

(** The worker after [start()] and [close()]. *)
Definition closed : St TObj := snd (close started).

(** The worker after [start()] and [run(len, 1, 2, 3)]. *)
Definition after_run : St TObj :=
  snd (run (TFunc FnLen) (TTuple [x01; x02; x03]) TDict started).

(** The state in which a second request has been written after the first
    call completed, and the worker has not been triggered yet. *)
Definition resent : St TObj :=
  snd (execute_send (TFunc FnFail) (TTuple [x01]) None after_run).

(** A worker whose module [numpy] cannot be imported: neither the import
    nor an assignment from the unbound name succeeds there. *)
Definition numpy_fails (c : Code) : option string :=
  match c with
  | CodeImport m => if String.eqb m "numpy" then Some "ModuleNotFoundError" else None
  | CodeAlias _ m => if String.eqb m "numpy" then Some "NameError" else None
  | _ => None
  end.

(** An interactive session: [import numpy as np], [from toylib import first]
    and a function [f] typed at the prompt. *)
Definition session_globals : list (string * TObj) :=
  [("np", TModule "numpy"); ("first", TFunc FnFirst); ("f", TFunc (FnMain "f" 11))].

Definition session_world (remote : Code -> option string) : World TObj :=
  {| w_next_id := 2; w_live := {[ 1%nat ]} ∪ ∅; w_running := ∅;
     w_ready := {[ 1%nat ]} ∪ ∅;
     w_next_file := 1; w_files := {[ 0%nat ]} ∪ ∅; w_shm := fun _ => x00;
     w_registry := {[ 7%nat ]} ∪ ∅;
     w_main_file := None; w_main_globals := session_globals;
     w_reimport := fun _ _ => Raise (UserError "ImportError");
     w_remote_exec := remote;
     w_trace := [EvCreate 1; EvRun (IdNum 1) (CodeInit 0)] |}.

(** The session over a worker where every statement succeeds, and over
    one where [numpy] fails. *)
Definition session : St TObj := Build_St (self started) (session_world (fun _ => None)).

Definition session_numpy : St TObj := Build_St (self started) (session_world numpy_fails).

(** The same, after line 182 has shipped [f]. *)
Definition session_numpy_shipped : St TObj :=
  Build_St (set_source_handled (Bound {[ "f" := CHash 11 ]}) (self started))
           (session_world numpy_fails).

(** The started worker while its sub-interpreter is running a call. *)
Definition busy : St TObj :=
  Build_St (self started)
           (set_interps 2 ({[ 1%nat ]} ∪ ∅) ({[ 1%nat ]} ∪ ∅) ({[ 1%nat ]} ∪ ∅)
              (world started)).

(** The started worker after [list_all().clear()]. *)
Definition unlisted : St TObj :=
  Build_St (self started) (set_registry ∅ (world started)).

(** The started worker in a process run from the script [job.py], whose
    module defines [f]; imported under its own name, the module gives
    [toylib.len] for [f]. *)
Definition scripted : St TObj :=
  Build_St (self started)
    {| w_next_id := 2; w_live := {[ 1%nat ]} ∪ ∅; w_running := ∅;
       w_ready := {[ 1%nat ]} ∪ ∅;
       w_next_file := 1; w_files := {[ 0%nat ]} ∪ ∅; w_shm := fun _ => x00;
       w_registry := {[ 7%nat ]} ∪ ∅;
       w_main_file := Some "job.py"; w_main_globals := [];
       w_reimport := fun _ name =>
         if String.eqb name "f" then Ok (TFunc FnLen) else Raise (AttributeError name);
       w_remote_exec := fun _ => None;
       w_trace := [EvCreate 1; EvRun (IdNum 1) (CodeInit 0)] |}.

(** A worker that rejects every source it is sent. *)
Definition rejects_sources (c : Code) : option string :=
  match c with
  | CodeSource _ => Some "SyntaxError"
  | _ => None
  end.

Definition session_rejecting : St TObj :=
  Build_St (self started) (session_world rejects_sources).

(** The session after line 182 has shipped [f], over a worker where every
    statement succeeds. *)
Definition session_shipped : St TObj :=
  Build_St (set_source_handled (Bound {[ "f" := CHash 11 ]}) (self started))
           (session_world (fun _ => None)).

(** The session before anything was shipped: [_source_handled] is the
    empty dict of line 180. *)
Definition session_open : St TObj :=
  Build_St (set_source_handled (Bound ∅) (self started)) (session_world (fun _ => None)).

(** The same objects in a process where the functions typed at the prompt
    share one [hash] (a redefinition that took the address of the function
    it replaced) and their sources differ. *)
Definition reuse_hash (o : TObj) : Z :=
  match o with
  | TFunc (FnMain _ _) => 0
  | _ => t_hash o
  end.

Definition reuse_getsource (o : TObj) : res string :=
  match o with
  | TFunc (FnMain name h) =>
      Ok ("def " +:+ name +:+ "(*a): return " +:+ (if h =? 11 then "{}" else "[]"))
  | _ => t_getsource o
  end.

Definition reuse_python : Python TObj := {|
  obj_module := t_module;
  obj_name := t_name;
  obj_hash := reuse_hash;
  obj_kind := t_kind;
  obj_truthy := t_truthy;
  empty_dict := TDict;
  getsource := reuse_getsource;
  call := t_call;
  pickle_dump := t_dump;
  pickle_load := t_load;
  pickle_load_dump := t_load_dump
|}.



End Scenario.

(** * Properties *)

(** ** The shared bytes *)

Lemma shm_store_inside (shm : Z -> byte) (pos : Z) (bs : list byte) (i : nat) :
  (i < length bs)%nat ->
  shm_store shm pos bs (pos + Z.of_nat i) = nth i bs x00.
Proof.
  intros Hi. unfold shm_store.
  replace (pos + Z.of_nat i - pos) with (Z.of_nat i) by lia.
  rewrite Nat2Z.id.
  destruct (Z.leb_spec pos (pos + Z.of_nat i)); [|lia].
  destruct (Z.ltb_spec (pos + Z.of_nat i) (pos + Z.of_nat (length bs))); [|lia].
  reflexivity.
Qed.

Lemma shm_store_outside (shm : Z -> byte) (pos : Z) (bs : list byte) (i : Z) :
  i < pos \/ pos + Z.of_nat (length bs) <= i ->
  shm_store shm pos bs i = shm i.
Proof.
  intros Hi. unfold shm_store.
  destruct (Z.leb_spec pos i); simpl; [|reflexivity].
  destruct (Z.ltb_spec i (pos + Z.of_nat (length bs))); [lia|reflexivity].
Qed.

Lemma shm_store_app (shm : Z -> byte) (pos : Z) (b1 b2 : list byte) (i : Z) :
  shm_store (shm_store shm pos b1) (pos + Z.of_nat (length b1)) b2 i
  = shm_store shm pos (b1 ++ b2) i.
Proof.
  unfold shm_store. rewrite length_app, Nat2Z.inj_add.
  destruct (Z.leb_spec (pos + Z.of_nat (length b1)) i) as [H1|H1];
    destruct (Z.ltb_spec i (pos + Z.of_nat (length b1) + Z.of_nat (length b2))) as [H2|H2];
    destruct (Z.leb_spec pos i) as [H3|H3];
    destruct (Z.ltb_spec i (pos + (Z.of_nat (length b1) + Z.of_nat (length b2)))) as [H4|H4];
    destruct (Z.ltb_spec i (pos + Z.of_nat (length b1))) as [H5|H5];
    simpl; try lia; try reflexivity.
  - rewrite app_nth2 by lia. f_equal. lia.
  - rewrite app_nth1 by lia. reflexivity.
Qed.

Lemma shm_store_ext (s1 s2 : Z -> byte) (pos : Z) (bs : list byte) (i : Z) :
  (forall j, s1 j = s2 j) ->
  shm_store s1 pos bs i = shm_store s2 pos bs i.
Proof.
  intros Hs. unfold shm_store. destruct (_ && _); [reflexivity|apply Hs].
Qed.

(** What the writes of one [dump] leave behind: the cursor only advances,
    bytes outside [[pos, pos')] are untouched, and the writes all succeed
    exactly when the stream fits before the end of the map. *)
Lemma buf_write_chunks_spec (chunks : list (list byte)) :
  forall (shm : Z -> byte) (pos : Z),
    match buf_write_chunks shm pos chunks with
    | (ok, shm', pos') =>
        pos <= pos' <= pos + Z.of_nat (length (concat chunks))
        /\ (forall i, i < pos \/ pos' <= i -> shm' i = shm i)
        /\ (if ok then
              pos' = pos + Z.of_nat (length (concat chunks))
              /\ (forall i, shm' i = shm_store shm pos (concat chunks) i)
            else BFSZ < pos + Z.of_nat (length (concat chunks)))
    end.
Proof.
  induction chunks as [|c rest IH]; intros shm pos; simpl.
  - split; [lia|]. split; [reflexivity|].
    split; [lia|].
    intros i. rewrite shm_store_outside; [reflexivity|simpl; lia].
  - unfold buf_write. rewrite length_app, Nat2Z.inj_add.
    destruct (Z.ltb_spec BFSZ (pos + Z.of_nat (length c))) as [Hc|Hc].
    + split; [lia|]. split; [reflexivity|]. lia.
    + specialize (IH (shm_store shm pos c) (pos + Z.of_nat (length c))).
      destruct (buf_write_chunks _ _ rest) as [[ok shm'] pos'].
      destruct IH as (Hpos & Hout & Hok).
      split; [lia|]. split.
      * intros i Hi. rewrite Hout by lia. apply shm_store_outside. lia.
      * destruct ok.
        -- destruct Hok as (Hp & Hs). split; [lia|].
           intros i. rewrite Hs. apply shm_store_app.
        -- lia.
Qed.


(** ** What a reader sees after a write *)

Lemma map_seq_shift (n : nat) :
  forall (g : nat -> byte) (k : nat),
    List.map g (seq k n) = List.map (fun i => g (k + i)%nat) (seq 0 n).
Proof.
  induction n as [|n IH]; intros g k; simpl.
  - reflexivity.
  - f_equal; [f_equal; lia|].
    rewrite (IH g (S k)), (IH (fun i => g (k + i)%nat) 1%nat).
    apply map_ext. intros i. f_equal. lia.
Qed.

Lemma view_shift (f : Z -> byte) (a : Z) (n k : nat) :
  List.map (fun i => f (a + Z.of_nat i)) (seq k n)
  = List.map (fun i => f (a + Z.of_nat k + Z.of_nat i)) (seq 0 n).
Proof.
  rewrite map_seq_shift. apply map_ext. intros i. f_equal. lia.
Qed.

Lemma view_exact (bs : list byte) :
  forall (shm : Z -> byte) (pos : Z),
    (forall i, (i < length bs)%nat -> shm (pos + Z.of_nat i) = nth i bs x00) ->
    List.map (fun i => shm (pos + Z.of_nat i)) (seq 0 (length bs)) = bs.
Proof.
  induction bs as [|b bs IH]; intros shm pos Hbs; simpl.
  - reflexivity.
  - f_equal.
    + apply (Hbs 0%nat). simpl. lia.
    + rewrite (view_shift shm pos (length bs) 1).
      apply (IH shm (pos + Z.of_nat 1)).
      intros i Hi. specialize (Hbs (S i)). simpl in Hbs.
      rewrite <- Hbs by lia. f_equal. lia.
Qed.

Lemma shm_view_prefix (shm : Z -> byte) (pos : Z) (bs : list byte) :
  pos + Z.of_nat (length bs) <= BFSZ ->
  (forall i, (i < length bs)%nat -> shm (pos + Z.of_nat i) = nth i bs x00) ->
  shm_view shm pos = bs ++ shm_view shm (pos + Z.of_nat (length bs)).
Proof.
  intros Hfit Hbs. unfold shm_view.
  replace (Z.to_nat (BFSZ - pos))
    with (length bs + Z.to_nat (BFSZ - (pos + Z.of_nat (length bs))))%nat by lia.
  rewrite seq_app, map_app. f_equal.
  - apply view_exact, Hbs.
  - apply view_shift.
Qed.

(** ** Reasoning about monadic code *)

Section Frame.
Context {Obj : Type} `{Python Obj}.

Lemma bind_inv {A B} (c : M Obj A) (k : A -> M Obj B) (st st' : St Obj) (r : res B) :
  bind c k st = (r, st') ->
  (exists a st1, c st = (Ok a, st1) /\ k a st1 = (r, st'))
  \/ (exists e, c st = (Raise e, st') /\ r = Raise e).
Proof.
  unfold bind. destruct (c st) as [[a|e] st1]; intros Hr.
  - left. exists a, st1. split; [reflexivity|exact Hr].
  - right. exists e. inversion Hr; subst. split; reflexivity.
Qed.

Lemma bind_ok {A B} (c : M Obj A) (k : A -> M Obj B) (st st1 : St Obj) (a : A) :
  c st = (Ok a, st1) -> bind c k st = k a st1.
Proof. unfold bind. intros ->. reflexivity. Qed.

Lemma bind_raise {A B} (c : M Obj A) (k : A -> M Obj B) (st st1 : St Obj) (e : exn) :
  c st = (Raise e, st1) -> bind c k st = (Raise e, st1).
Proof. unfold bind. intros ->. reflexivity. Qed.

(** *** Replication leaves the channel alone *)

Lemma cache_le_refl (a : attr (gmap string CacheVal)) : cache_le a a.
Proof. destruct a as [|c]; simpl; [exact I|]. exists c. split; [reflexivity|set_solver]. Qed.

Lemma cache_le_trans (a b c : attr (gmap string CacheVal)) :
  cache_le a b -> cache_le b c -> cache_le a c.
Proof.
  destruct a as [|ca]; simpl; [trivial|].
  intros (cb & -> & Hab). simpl. intros (cc & -> & Hbc).
  exists cc. split; [reflexivity|set_solver].
Qed.

Lemma frame_refl (st : St Obj) : frame st st.
Proof.
  split.
  - destruct (self st); reflexivity.
  - destruct (world st); reflexivity.
  - exists []. rewrite app_nil_r. split; [reflexivity|constructor].
  - apply cache_le_refl.
Qed.

Lemma frame_trans (st1 st2 st3 : St Obj) :
  frame st1 st2 -> frame st2 st3 -> frame st1 st3.
Proof.
  intros [Hs1 Hw1 (e1 & Ht1 & Hp1) Hc1] [Hs2 Hw2 (e2 & Ht2 & Hp2) Hc2].
  split.
  - rewrite Hs2, Hs1. reflexivity.
  - rewrite Hw2, Hw1. reflexivity.
  - exists (e1 ++ e2). rewrite Ht2, Ht1, app_assoc.
    split; [reflexivity|]. apply Forall_app. split; assumption.
  - eapply cache_le_trans; eassumption.
Qed.

Lemma keeps_ret {A} (a : A) : keeps (@ret Obj A a).
Proof. intros st r st' Hr. inversion Hr; subst. apply frame_refl. Qed.

Lemma keeps_raise {A} (e : exn) : keeps (@raise Obj A e).
Proof. intros st r st' Hr. inversion Hr; subst. apply frame_refl. Qed.

Lemma keeps_get {A} (f : St Obj -> A) : keeps (get f).
Proof. intros st r st' Hr. inversion Hr; subst. apply frame_refl. Qed.

Lemma keeps_getattr {A} (name : string) (f : Interpreter -> attr A) :
  keeps (@getattr Obj A name f).
Proof.
  intros st r st'. unfold getattr. destruct (f (self st)); intros Hr;
    inversion Hr; subst; apply frame_refl.
Qed.

Lemma keeps_bind {A B} (c : M Obj A) (k : A -> M Obj B) :
  keeps c -> (forall a, keeps (k a)) -> keeps (bind c k).
Proof.
  intros Hc Hk st r st' Hr.
  destruct (bind_inv _ _ _ _ _ Hr) as [(a & st1 & H1 & H2)|(e & H1 & _)].
  - eapply frame_trans; [eapply Hc, H1|eapply Hk, H2].
  - eapply Hc, H1.
Qed.

Lemma keeps_try_except {A} (c : M Obj A) (h : exn -> option (M Obj A)) :
  keeps c -> (forall e k, h e = Some k -> keeps k) -> keeps (try_except c h).
Proof.
  intros Hc Hh st r st'. unfold try_except.
  destruct (c st) as [[a|e] st1] eqn:H1.
  - intros Hr. inversion Hr; subst. eapply Hc, H1.
  - destruct (h e) as [k|] eqn:He.
    + intros Hr. eapply frame_trans; [eapply Hc, H1|eapply Hh; eassumption].
    + intros Hr. inversion Hr; subst. eapply Hc, H1.
Qed.

Lemma keeps_log (ev : Event) : replication_event ev -> keeps (@log Obj ev).
Proof.
  intros Hev st r st' Hr. unfold log, modify_world in Hr.
  inversion Hr; subst; clear Hr. split; simpl.
  - destruct (self st); reflexivity.
  - reflexivity.
  - exists [ev]. split; [reflexivity|]. constructor; [exact Hev|constructor].
  - apply cache_le_refl.
Qed.

Lemma keeps_run_string (c : Code) : replication_code c -> keeps (run_string c).
Proof.
  intros Hc. unfold run_string. apply keeps_bind; [apply keeps_get|]. intros i.
  unfold interpreters_run_string.
  apply keeps_bind; [apply keeps_log; exact Hc|]. intros _.
  destruct i; try apply keeps_raise.
  apply keeps_bind; [apply keeps_get|]. intros w.
  destruct (negb _); [apply keeps_raise|].
  destruct (bool_decide _); [apply keeps_raise|].
  destruct c; simpl in Hc; try contradiction;
    destruct (w_remote_exec w _); try apply keeps_ret; apply keeps_raise.
Qed.

Lemma keeps_cache_insert (k : string) (v : CacheVal) :
  keeps (let! cache := @getattr Obj _ "_source_handled" source_handled in
         modify_self (set_source_handled (Bound (<[ k := v ]> cache)))).
Proof.
  intros st r st'. unfold bind, getattr, modify_self.
  destruct (source_handled (self st)) as [|cache] eqn:Hsh; intros Hr;
    inversion Hr; subst; clear Hr; [apply frame_refl|].
  split; simpl.
  - reflexivity.
  - destruct (world st); reflexivity.
  - exists []. rewrite app_nil_r. split; [reflexivity|constructor].
  - rewrite Hsh. simpl. eexists. split; [reflexivity|].
    rewrite dom_insert_L. set_solver.
Qed.

Lemma keeps_source_handle (func : Obj) : keeps (_source_handle func).
Proof.
  unfold _source_handle.
  apply keeps_bind; [apply keeps_getattr|]. intros cache.
  destruct (match cache !! obj_name func with
            | Some (CHash h) => obj_hash func =? h
            | _ => false
            end) eqn:Hh.
  - replace (match cache !! obj_name func with
             | Some (CHash h) => obj_hash func =? h
             | Some CModule => false
             | None => false
             end) with true by (rewrite <- Hh; destruct (cache !! obj_name func) as [[]|]; reflexivity).
    apply keeps_ret.
  - replace (match cache !! obj_name func with
             | Some (CHash h) => obj_hash func =? h
             | Some CModule => false
             | None => false
             end) with false by (rewrite <- Hh; destruct (cache !! obj_name func) as [[]|]; reflexivity).
    destruct (getsource func); [|apply keeps_raise].
    apply keeps_bind; [apply keeps_run_string; exact I|]. intros _.
    apply keeps_cache_insert.
Qed.

Lemma keeps_handle_module (mod_name : option string) : keeps (_handle_module mod_name).
Proof.
  unfold _handle_module. destruct mod_name as [m|]; [|apply keeps_ret].
  destruct (negb (str_truthy m)); [apply keeps_ret|].
  apply keeps_bind; [apply keeps_getattr|]. intros cache.
  destruct (bool_decide _); [apply keeps_ret|].
  apply keeps_try_except.
  - apply keeps_bind; [apply keeps_run_string; exact I|]. intros _.
    apply keeps_cache_insert.
  - intros e k. destruct e; intros Hk; inversion Hk; subst. apply keeps_ret.
Qed.

Lemma handled_frame (name : string) (st st' : St Obj) :
  handled name st -> frame st st' -> handled name st'.
Proof.
  intros (cache & Hc & Hin) [_ _ _ Hle]. rewrite Hc in Hle. simpl in Hle.
  destruct Hle as (cb & Hcb & Hsub). exists cb. split; [exact Hcb|set_solver].
Qed.

(** Line 182 leaves the callable's name among the keys whenever it returns. *)
Lemma source_handle_handled (func : Obj) (st st' : St Obj) :
  _source_handle func st = (Ok tt, st') -> handled (obj_name func) st'.
Proof.
  unfold _source_handle. intros Hr.
  destruct (bind_inv _ _ _ _ _ Hr) as [(cache & st1 & H1 & H2)|(e & _ & He)];
    [|discriminate].
  unfold getattr in H1.
  destruct (source_handled (self st)) as [|c0] eqn:Hsh; inversion H1; subst; clear H1.
  destruct (cache !! obj_name func) as [[h|]|] eqn:Hl.
  - destruct (obj_hash func =? h).
    + inversion H2; subst. exists cache. split; [exact Hsh|].
      apply elem_of_dom. rewrite Hl. eexists; reflexivity.
    + destruct (getsource func) as [src|e]; [|discriminate].
      destruct (bind_inv _ _ _ _ _ H2) as [(u & st2 & H3 & H4)|(e & _ & He)];
        [|discriminate].
      unfold bind, getattr, modify_self in H4.
      destruct (source_handled (self st2)) as [|c2]; inversion H4; subst.
      eexists. split; [reflexivity|]. rewrite dom_insert_L. set_solver.
  - simpl in H2. destruct (getsource func) as [src|e]; [|discriminate].
    destruct (bind_inv _ _ _ _ _ H2) as [(u & st2 & H3 & H4)|(e & _ & He)];
      [|discriminate].
    unfold bind, getattr, modify_self in H4.
    destruct (source_handled (self st2)) as [|c2]; inversion H4; subst.
    eexists. split; [reflexivity|]. rewrite dom_insert_L. set_solver.
  - simpl in H2. destruct (getsource func) as [src|e]; [|discriminate].
    destruct (bind_inv _ _ _ _ _ H2) as [(u & st2 & H3 & H4)|(e & _ & He)];
      [|discriminate].
    unfold bind, getattr, modify_self in H4.
    destruct (source_handled (self st2)) as [|c2]; inversion H4; subst.
    eexists. split; [reflexivity|]. rewrite dom_insert_L. set_solver.
Qed.

(** With the callable's name among the keys, the test of line 194 is
    false: a binding of an imported function sends the import and
    nothing else. *)
Lemma prepare_binding_imported (func : Obj) (name : string) (obj : Obj) (st : St Obj) :
  handled (obj_name func) st ->
  obj_kind obj = KFunction ->
  obj_module obj <> Some "__main__" ->
  prepare_binding func name obj st = _handle_module (obj_module obj) st.
Proof.
  intros Hh Hk Hm. unfold prepare_binding. rewrite Hk.
  rewrite bool_decide_eq_false_2 by exact Hm.
  destruct (_handle_module (obj_module obj) st) as [[[]|e] st1] eqn:H1.
  - rewrite (bind_ok _ _ _ _ _ H1).
    assert (Hh1 : handled (obj_name func) st1).
    { eapply handled_frame; [exact Hh|]. eapply keeps_handle_module, H1. }
    destruct Hh1 as (cache & Hc & Hin).
    unfold bind, getattr. rewrite Hc.
    rewrite bool_decide_eq_true_2 by exact Hin. reflexivity.
  - rewrite (bind_raise _ _ _ _ _ H1). reflexivity.
Qed.

Lemma prepare_binding_frame (func : Obj) (name : string) (obj : Obj)
    (st : St Obj) (r : res unit) (st' : St Obj) :
  handled (obj_name func) st ->
  prepare_binding func name obj st = (r, st') ->
  frame st st'.
Proof.
  intros Hh. destruct (obj_kind obj) eqn:Hk.
  - destruct (decide (obj_module obj = Some "__main__")) as [Hm|Hm].
    + unfold prepare_binding. rewrite Hk, (bool_decide_eq_true_2 _ Hm).
      apply keeps_source_handle.
    + rewrite (prepare_binding_imported _ _ _ _ Hh Hk Hm).
      apply keeps_handle_module.
  - unfold prepare_binding. rewrite Hk.
    apply keeps_bind; [apply keeps_handle_module|]. intros _.
    apply keeps_bind; [apply keeps_getattr|]. intros cache.
    destruct (_ && _); [apply keeps_run_string; exact I|apply keeps_ret].
  - unfold prepare_binding. rewrite Hk. apply keeps_ret.
Qed.

Lemma prepare_bindings_frame (func : Obj) (items : list (string * Obj)) :
  forall (st : St Obj) (r : res unit) (st' : St Obj),
    handled (obj_name func) st ->
    prepare_bindings func items st = (r, st') ->
    frame st st'.
Proof.
  induction items as [|[name obj] rest IH]; intros st r st' Hh Hr.
  - inversion Hr; subst. apply frame_refl.
  - cbn [prepare_bindings] in Hr.
    destruct (bind_inv _ _ _ _ _ Hr) as [(u & st1 & H1 & H2)|(e & H1 & _)].
    + pose proof (prepare_binding_frame _ _ _ _ _ _ Hh H1) as F1.
      eapply frame_trans; [exact F1|].
      eapply IH; [|exact H2]. eapply handled_frame; eassumption.
    + eapply prepare_binding_frame; eassumption.
Qed.

Lemma keeps_prepare_interactive (func : Obj) : keeps (_prepare_interactive func).
Proof.
  intros st r st'. unfold _prepare_interactive.
  destruct (negb _); [apply keeps_raise|].
  intros Hr.
  destruct (bind_inv _ _ _ _ _ Hr) as [(me & st1 & H1 & H2)|(e & H1 & _)];
    [|inversion H1].
  inversion H1; subst; clear H1.
  assert (Hinit : forall r1 st2,
             (match source_handled (self st1) with
              | Unset => modify_self (set_source_handled (Bound ∅))
              | Bound _ => ret tt
              end) st1 = (r1, st2) -> frame st1 st2).
  { intros r1 st2. destruct (source_handled (self st1)) eqn:Hsh.
    - unfold modify_self. intros Hm. inversion Hm; subst. split; simpl.
      + reflexivity.
      + destruct (world st1); reflexivity.
      + exists []. rewrite app_nil_r. split; [reflexivity|constructor].
      + rewrite Hsh. exact I.
    - apply keeps_ret. }
  destruct (bind_inv _ _ _ _ _ H2) as [(u & st2 & H3 & H4)|(e & H3 & _)];
    [|eapply Hinit, H3].
  eapply frame_trans; [eapply Hinit, H3|].
  destruct (bind_inv _ _ _ _ _ H4) as [([] & st3 & H5 & H6)|(e & H5 & _)];
    [|eapply keeps_source_handle, H5].
  eapply frame_trans; [eapply keeps_source_handle, H5|].
  destruct (bind_inv _ _ _ _ _ H6) as [(g & st4 & H7 & H8)|(e & H7 & _)];
    [|inversion H7].
  inversion H7; subst; clear H7.
  eapply prepare_bindings_frame; [|exact H8].
  eapply source_handle_handled, H5.
Qed.

Lemma keeps_resolve_main (func : Obj) : keeps (resolve_main func).
Proof.
  unfold resolve_main. destruct (bool_decide _); [|apply keeps_ret].
  apply keeps_bind; [apply keeps_get|]. intros main_file.
  destruct main_file as [path|].
  - destruct (str_truthy path).
    + apply keeps_bind; [apply keeps_get|]. intros w.
      destruct (w_reimport w path (obj_name func)); [apply keeps_ret|apply keeps_raise].
    + apply keeps_bind; [apply keeps_prepare_interactive|]. intros _. apply keeps_ret.
  - apply keeps_bind; [apply keeps_prepare_interactive|]. intros _. apply keeps_ret.
Qed.

End Frame.

(** ** The request written by [execute] *)

Section Dispatch.
Context {Obj : Type} `{Python Obj}.

Lemma at_cursor_id (st : St Obj) (p : Z) :
  chan st p -> at_cursor p (w_shm (world st)) st = st.
Proof.
  unfold chan, at_cursor. destruct st as [s w]; destruct s; destruct w; simpl.
  intros ->. reflexivity.
Qed.

Lemma pickle_dump_map_live (o : Obj) (st : St Obj) (p : Z) (chunks : list (list byte)) :
  chan st p ->
  pickle_dump o = Some chunks ->
  pickle_dump_map o st =
    match buf_write_chunks (w_shm (world st)) p chunks with
    | (ok, shm', p') =>
        (if ok then Ok tt else Raise (ValueError "data out of range"),
         at_cursor p' shm' st)
    end.
Proof.
  unfold chan. intros Hc Hd.
  unfold pickle_dump_map, bind, getattr, get, modify_world, modify_self, ret, raise.
  rewrite Hc, Hd. simpl.
  destruct (buf_write_chunks (w_shm (world st)) p chunks) as [[ok shm'] p'].
  destruct ok; reflexivity.
Qed.

Lemma dump_objects_spec (objs : list Obj) :
  forall (st : St Obj) (p : Z),
    chan st p ->
    exists r p' shm',
      dump_objects objs st = (r, at_cursor p' shm' st)
      /\ p <= p' <= p + Z.of_nat (length (stream objs))
      /\ (forall i, i < p \/ p' <= i -> shm' i = w_shm (world st) i)
      /\ match r with
         | Ok _ =>
             p' = p + Z.of_nat (length (stream objs))
             /\ (forall i, shm' i = shm_store (w_shm (world st)) p (stream objs) i)
             /\ (objs = [] \/ p' < BFSZ - RET_OFFSET)
             /\ Forall picklable objs
         | Raise e =>
             (e = RuntimeError payload_msg
              /\ BFSZ - RET_OFFSET <= p + Z.of_nat (length (stream objs)))
             \/ (e = PicklingError /\ ~ Forall picklable objs)
         end.
Proof.
  induction objs as [|o rest IH]; intros st p Hc.
  - exists (Ok tt), p, (w_shm (world st)). simpl.
    rewrite (at_cursor_id _ _ Hc). unfold ret.
    split; [reflexivity|]. split; [lia|]. split; [reflexivity|].
    split; [lia|]. split; [|split; [left; reflexivity|constructor]].
    intros i. rewrite shm_store_outside; [reflexivity|simpl; lia].
  - destruct (pickle_dump o) as [chunks|] eqn:Hd.
    2:{ exists (Raise PicklingError), p, (w_shm (world st)).
        rewrite (at_cursor_id _ _ Hc).
        cbn [dump_objects]. unfold bind at 1. unfold try_except, bind at 1.
        unfold pickle_dump_map, bind, getattr, raise. rewrite Hc, Hd.
        split; [reflexivity|]. split; [lia|]. split; [reflexivity|].
        right. split; [reflexivity|]. intros Hall.
        inversion Hall as [|o' rest' Ho Hrest]; subst. apply Ho, Hd. }
    assert (Ho : picklable o) by (unfold picklable; rewrite Hd; discriminate).
    cbn [dump_objects]. unfold bind at 1. unfold try_except, bind at 1.
    rewrite (pickle_dump_map_live o st p chunks Hc Hd).
    pose proof (buf_write_chunks_spec chunks (w_shm (world st)) p) as Hw.
    destruct (buf_write_chunks (w_shm (world st)) p chunks) as [[ok shm1] p1].
    destruct Hw as (Hpos & Hout & Hok).
    assert (Hstr : stream (o :: rest) = concat chunks ++ stream rest).
    { unfold stream. simpl. unfold dumped at 1. rewrite Hd. reflexivity. }
    set (s0 := stream (o :: rest)) in *. clearbody s0.
    assert (Hlen : length s0 = (length (concat chunks) + length (stream rest))%nat).
    { rewrite Hstr. apply length_app. }
    destruct ok.
    + destruct Hok as (Hp1 & Hs1).
      unfold ret at 1. unfold bind at 1. unfold bind at 1.
      unfold map_tell, live_map, bind, getattr, ret. simpl.
      destruct (Z.leb_spec (BFSZ - RET_OFFSET) p1) as [Hover|Hunder].
      * exists (Raise (RuntimeError payload_msg)), p1, shm1. unfold raise.
        split; [reflexivity|]. split; [lia|]. split; [exact Hout|].
        left. split; [reflexivity|]. lia.
      * destruct (IH (at_cursor p1 shm1 st) p1) as (r & p' & shm' & Hrun & Hb & Hfr & Hr);
          [reflexivity|].
        exists r, p', shm'. simpl in Hfr.
        split; [exact Hrun|]. split; [lia|]. split.
        { intros i Hi. rewrite Hfr by lia. apply Hout. lia. }
        destruct r as [[]|e].
        -- destruct Hr as (Hp' & Hs' & Hlim & Hall). split; [lia|]. split; [|split].
           ++ intros i. rewrite Hs'. simpl.
              rewrite Hstr, <- shm_store_app, Hp1.
              apply shm_store_ext, Hs1.
           ++ right. destruct Hlim as [->|Hlim]; [simpl in Hp'; lia|lia].
           ++ constructor; assumption.
        -- destruct Hr as [(He & Hlim)|(He & Hnot)].
           ++ left. split; [exact He|]. lia.
           ++ right. split; [exact He|]. intros Hall.
              inversion Hall; subst. apply Hnot. assumption.
    + simpl. unfold bind, ret. simpl.
      exists (Raise (RuntimeError payload_msg)), p1, shm1. unfold raise.
      split; [reflexivity|]. split; [lia|]. split; [exact Hout|].
      left. split; [reflexivity|]. unfold BFSZ, RET_OFFSET in *. lia.
Qed.

(** One turn of the loop, when the cursor stays below the threshold and
    when it reaches it. *)
Lemma dump_objects_under (o : Obj) (rest : list Obj) (st : St Obj) (p : Z)
    (chunks : list (list byte)) :
  chan st p ->
  pickle_dump o = Some chunks ->
  p + Z.of_nat (length (concat chunks)) < BFSZ - RET_OFFSET ->
  exists shm',
    dump_objects (o :: rest) st
    = dump_objects rest (at_cursor (p + Z.of_nat (length (concat chunks))) shm' st)
    /\ forall i, shm' i = shm_store (w_shm (world st)) p (concat chunks) i.
Proof.
  intros Hc Hd Hlt.
  cbn [dump_objects]. unfold bind at 1. unfold try_except, bind at 1.
  rewrite (pickle_dump_map_live o st p chunks Hc Hd).
  pose proof (buf_write_chunks_spec chunks (w_shm (world st)) p) as Hw.
  destruct (buf_write_chunks (w_shm (world st)) p chunks) as [[ok shm1] p1].
  destruct Hw as (Hpos & Hout & Hok).
  destruct ok; [|unfold BFSZ, RET_OFFSET in *; lia].
  destruct Hok as (Hp1 & Hs1). subst p1.
  exists shm1. split; [|exact Hs1].
  unfold ret at 1. unfold bind at 1. unfold bind at 1.
  unfold map_tell, live_map, bind, getattr, ret. simpl.
  destruct (Z.leb_spec (BFSZ - RET_OFFSET) (p + Z.of_nat (length (concat chunks))));
    [lia|reflexivity].
Qed.

Lemma dump_objects_over (o : Obj) (rest : list Obj) (st : St Obj) (p : Z)
    (chunks : list (list byte)) :
  chan st p ->
  pickle_dump o = Some chunks ->
  p + Z.of_nat (length (concat chunks)) <= BFSZ ->
  BFSZ - RET_OFFSET <= p + Z.of_nat (length (concat chunks)) ->
  exists shm',
    dump_objects (o :: rest) st
    = (Raise (RuntimeError payload_msg),
       at_cursor (p + Z.of_nat (length (concat chunks))) shm' st)
    /\ forall i, shm' i = shm_store (w_shm (world st)) p (concat chunks) i.
Proof.
  intros Hc Hd Hfit Hge.
  cbn [dump_objects]. unfold bind at 1. unfold try_except, bind at 1.
  rewrite (pickle_dump_map_live o st p chunks Hc Hd).
  pose proof (buf_write_chunks_spec chunks (w_shm (world st)) p) as Hw.
  destruct (buf_write_chunks (w_shm (world st)) p chunks) as [[ok shm1] p1].
  destruct Hw as (Hpos & Hout & Hok).
  destruct ok; [|lia].
  destruct Hok as (Hp1 & Hs1). subst p1.
  exists shm1. split; [|exact Hs1].
  unfold ret at 1. unfold bind at 1. unfold bind at 1.
  unfold map_tell, live_map, bind, getattr, ret. simpl.
  destruct (Z.leb_spec (BFSZ - RET_OFFSET) (p + Z.of_nat (length (concat chunks))));
    [reflexivity|lia].
Qed.

End Dispatch.

(** ** Lifecycle *)

Section Lifecycle.
Context {Obj : Type} `{Python Obj}.

Lemma close_release_ok (st st1 : St Obj) :
  close_release st = (Ok tt, st1) ->
  intno (self st1) = IdFalse /\ map (self st1) = Bound None.
Proof.
  unfold close_release. intros Hr.
  destruct (bind_inv _ _ _ _ _ Hr) as [(u & sa & _ & H2)|(e & _ & He)]; [|discriminate].
  unfold bind, modify_self in H2. inversion H2; subst. simpl. split; reflexivity.
Qed.

Lemma close_ok (st st' : St Obj) :
  close st = (Ok tt, st') ->
  intno (self st') = IdFalse /\ map (self st') = Bound None.
Proof.
  unfold close. intros Hr.
  destruct (bind_inv _ _ _ _ _ Hr) as [(i & sa & _ & H2)|(e & _ & He)]; [|discriminate].
  destruct (bind_inv _ _ _ _ _ H2) as [(u & sb & _ & H3)|(e & _ & He)]; [|discriminate].
  destruct (bind_inv _ _ _ _ _ H3) as [([] & sc & H4 & H5)|(e & _ & He)]; [|discriminate].
  destruct (close_release_ok _ _ H4) as [Hi Hm].
  destruct (bind_inv _ _ _ _ _ H5) as [(u2 & sd & H6 & H7)|(e & _ & He)]; [|discriminate].
  unfold modify_self in H6. inversion H6; subst; clear H6.
  unfold try_except, registry_remove, bind, get, modify_world, raise in H7. simpl in H7.
  destruct (bool_decide _); inversion H7; subst. simpl. split; assumption.
Qed.


(** C4 (the code departs from the claim): [close()] has no guard.  Called
    again after a [close()] that returned, it asks the primitive to
    destroy [False] once more, and that [RuntimeError] reaches the
    caller. *)
Theorem second_close_destroys_again (st st1 : St Obj) :
  close st = (Ok tt, st1) ->
  exists st2,
    close st1 = (Raise (RuntimeError "cannot destroy the current interpreter"), st2)
    /\ w_trace (world st2) = w_trace (world st1) ++ [EvDestroy IdFalse].
Proof.
  intros Hc. destruct (close_ok _ _ Hc) as [Hi _].
  unfold close, bind, get. rewrite Hi.
  unfold try_except, interpreters_destroy, bind, log, modify_world, raise. simpl.
  eexists. split; reflexivity.
Qed.

(** The finalizer does test [intno]: on a closed worker it does nothing. *)
Lemma del_after_close (st st' : St Obj) :
  close st = (Ok tt, st') -> __del__ st' = (Ok tt, st').
Proof.
  intros Hc. destruct (close_ok _ _ Hc) as [Hi _].
  unfold __del__, bind, get. rewrite Hi. reflexivity.
Qed.

(** Were the primitive to let the second [destroy] pass, the rest of
    [close()] would still fail on the closed worker: [self.map] is [None],
    and the [finally] clause unlinks the file a second time. *)
Lemma release_after_close_unlinks_again (st : St Obj) (f : nat) :
  map (self st) = Bound None ->
  fname (self st) = Bound f ->
  exists e st',
    close_release st = (Raise e, st')
    /\ w_trace (world st') = w_trace (world st) ++ [EvUnlink f]
    /\ (e = AttributeError "close" \/ e = FileNotFoundError).
Proof.
  intros Hm Hf.
  unfold close_release, try_finally, map_close, os_unlink, log.
  unfold bind, getattr, modify_world, get, raise. rewrite Hm, Hf. simpl.
  destruct (bool_decide _); simpl; eexists _, _; (split; [reflexivity|]);
    (split; [reflexivity|]); [left|right]; reflexivity.
Qed.

End Lifecycle.


Lemma second_close_destroys_again_witness :
  exists st2,
    close Scenario.closed
    = (Raise (RuntimeError "cannot destroy the current interpreter"), st2)
    /\ w_trace (world st2) = w_trace (world Scenario.closed) ++ [EvDestroy IdFalse].
Proof.
  apply (second_close_destroys_again Scenario.started Scenario.closed).
  reflexivity.
Defined.

(** ** Dispatch *)

Section Execute.
Context {Obj : Type} `{Python Obj}.

Lemma frame_chan (st st' : St Obj) (p : Z) : frame st st' -> chan st p -> chan st' p.
Proof. intros [Hs _ _ _]. unfold chan. rewrite Hs. simpl. trivial. Qed.

Lemma frame_shm (st st' : St Obj) : frame st st' -> w_shm (world st') = w_shm (world st).
Proof. intros [_ Hw _ _]. rewrite Hw. reflexivity. Qed.

Lemma frame_intno (st st' : St Obj) : frame st st' -> intno (self st') = intno (self st).
Proof. intros [Hs _ _ _]. rewrite Hs. reflexivity. Qed.

(** A callable that is not of [__main__] is dispatched as it is. *)
Lemma resolve_main_importable (func : Obj) (st : St Obj) :
  obj_module func <> Some "__main__" ->
  resolve_main func st = (Ok (func, false), st).
Proof.
  intros Hm. unfold resolve_main. rewrite bool_decide_eq_false_2 by exact Hm.
  reflexivity.
Qed.

Lemma map_getitem_live (st : St Obj) (p i : Z) :
  chan st p -> 0 <= i < BFSZ ->
  map_getitem i st = (Ok (w_shm (world st) i), st).
Proof.
  unfold chan. intros Hc Hi. unfold map_getitem, live_map, bind, getattr, get, ret.
  rewrite Hc. simpl.
  destruct (Z.leb_spec 0 i); [|lia]. destruct (Z.ltb_spec i BFSZ); [|lia].
  reflexivity.
Qed.

Lemma done_live (st : St Obj) (p : Z) :
  chan st p ->
  done st = (Ok (negb (Byte.eqb (w_shm (world st) RET_OFFSET) x00)), st).
Proof.
  intros Hc. unfold done.
  rewrite (bind_ok _ _ _ _ _ (map_getitem_live st p RET_OFFSET Hc ltac:(unfold RET_OFFSET, BFSZ; lia))).
  reflexivity.
Qed.

Lemma done_inv (st st' : St Obj) (b : bool) :
  done st = (Ok b, st') ->
  st' = st
  /\ (exists p, chan st p)
  /\ b = negb (Byte.eqb (w_shm (world st) RET_OFFSET) x00).
Proof.
  unfold done, map_getitem, live_map, bind, getattr, get, ret, raise, chan.
  destruct (map (self st)) as [|[[p c]|]]; try discriminate.
  destruct c; simpl; try discriminate.
  intros Hr. inversion Hr; subst. split; [reflexivity|]. split; [|reflexivity].
  exists p. reflexivity.
Qed.

(** Lines 214-231 once the callable is resolved: the cursor is at 0 and
    nothing else has moved. *)
Lemma execute_send_resolved (func args : Obj) (kwargs : option Obj)
    (st : St Obj) (func' : Obj) (b : bool) (st0 : St Obj) (p : Z) :
  intno (self st) <> IdNone ->
  resolve_main func st = (Ok (func', b), st0) ->
  chan st0 p ->
  execute_send func args kwargs st =
    (dump_objects [func'; args; kwargs_or_empty kwargs] >>
     (if b then log EvRenameMain else ret tt))
      (at_cursor 0 (w_shm (world st0)) st0).
Proof.
  intros Hi Hres Hc.
  assert (Hbody :
    (let! resolved := resolve_main func in
     let func := fst resolved in
     let revert_main_name := snd resolved in
     let! flag := map_getitem RET_OFFSET in
     let _compared := Byte.eqb flag x00 in
     let kwargs := kwargs_or_empty kwargs in
     map_seek 0 >>
     dump_objects [func; args; kwargs] >>
     if revert_main_name : bool then log EvRenameMain else ret tt) st
    = (dump_objects [func'; args; kwargs_or_empty kwargs] >>
       (if b then log EvRenameMain else ret tt))
        (at_cursor 0 (w_shm (world st0)) st0)).
  { rewrite (bind_ok _ _ _ _ _ Hres). cbn [fst snd].
    rewrite (bind_ok _ _ _ _ _
               (map_getitem_live st0 p RET_OFFSET Hc ltac:(unfold RET_OFFSET, BFSZ; lia))).
    cbv zeta.
    assert (Hseek : map_seek 0 st0 = (Ok tt, at_cursor 0 (w_shm (world st0)) st0)).
    { unfold map_seek, live_map, bind, getattr, ret, modify_self, at_cursor.
      unfold chan in Hc. rewrite Hc. simpl. destruct (world st0); reflexivity. }
    rewrite (bind_ok _ _ _ _ _ Hseek). reflexivity. }
  unfold execute_send. unfold bind at 1. unfold get.
  destruct (intno (self st)); [contradiction|exact Hbody|exact Hbody].
Qed.

(** What a returned [execute_send] tells about the state it ran in. *)
Lemma execute_send_ok_inv (func args : Obj) (kwargs : option Obj) (st st1 : St Obj) :
  execute_send func args kwargs st = (Ok tt, st1) ->
  exists func' b st0 p,
    intno (self st) <> IdNone
    /\ resolve_main func st = (Ok (func', b), st0)
    /\ chan st0 p.
Proof.
  unfold execute_send. unfold bind at 1. unfold get.
  assert (Hbody : forall (k : Obj * bool -> Z -> M Obj unit),
    (let! resolved := resolve_main func in
     let! flag := map_getitem RET_OFFSET in k resolved (Z.of_N (Byte.to_N flag))) st = (Ok tt, st1) ->
    exists func' b st0 p,
      resolve_main func st = (Ok (func', b), st0) /\ chan st0 p).
  { intros k Hr.
    destruct (bind_inv _ _ _ _ _ Hr) as [([func' b] & st0 & H1 & H2)|(e & _ & He)];
      [|discriminate].
    destruct (bind_inv _ _ _ _ _ H2) as [(flag & sa & H3 & _)|(e & _ & He)];
      [|discriminate].
    exists func', b, st0.
    unfold map_getitem, live_map, bind, getattr, get, ret, raise in H3.
    destruct (map (self st0)) as [|[[p c]|]] eqn:Hm; try discriminate.
    destruct c; try discriminate.
    exists p. split; [exact H1|exact Hm]. }
  destruct (intno (self st)) eqn:Hi; [discriminate| |]; intros Hr.
  - destruct (Hbody (fun resolved flag =>
        let func := fst resolved in
        let revert_main_name := snd resolved in
        let kwargs := kwargs_or_empty kwargs in
        map_seek 0 >>
        dump_objects [func; args; kwargs] >>
        if revert_main_name : bool then log EvRenameMain else ret tt) Hr)
      as (func' & b & st0 & p & H1 & H2).
    exists func', b, st0, p. split; [discriminate|]. split; assumption.
  - destruct (Hbody (fun resolved flag =>
        let func := fst resolved in
        let revert_main_name := snd resolved in
        let kwargs := kwargs_or_empty kwargs in
        map_seek 0 >>
        dump_objects [func; args; kwargs] >>
        if revert_main_name : bool then log EvRenameMain else ret tt) Hr)
      as (func' & b & st0 & p & H1 & H2).
    exists func', b, st0, p. split; [discriminate|]. split; assumption.
Qed.

Lemma sent_chan (b : bool) (p' : Z) (shm' : Z -> byte) (st0 : St Obj) :
  chan (sent b p' shm' st0) p' /\ w_shm (world (sent b p' shm' st0)) = shm'.
Proof. destruct b; split; reflexivity. Qed.

(** [execute_send] in full, once the callable is resolved: it returns only
    when the three pickles end below [BFSZ - RET_OFFSET], and every byte
    at or after the cursor it leaves is as it was. *)
Lemma execute_send_spec (func args : Obj) (kwargs : option Obj)
    (st : St Obj) (func' : Obj) (b : bool) (st0 : St Obj) (p : Z) :
  intno (self st) <> IdNone ->
  resolve_main func st = (Ok (func', b), st0) ->
  chan st0 p ->
  let objs := [func'; args; kwargs_or_empty kwargs] in
  exists r p' shm' st1,
    execute_send func args kwargs st = (r, st1)
    /\ 0 <= p' <= Z.of_nat (length (stream objs))
    /\ (forall i, p' <= i -> shm' i = w_shm (world st0) i)
    /\ match r with
       | Ok _ =>
           st1 = sent b p' shm' st0
           /\ p' = Z.of_nat (length (stream objs))
           /\ p' < BFSZ - RET_OFFSET
           /\ (forall i, shm' i = shm_store (w_shm (world st0)) 0 (stream objs) i)
           /\ Forall picklable objs
       | Raise e =>
           st1 = at_cursor p' shm' st0
           /\ ((e = RuntimeError payload_msg
                /\ BFSZ - RET_OFFSET <= Z.of_nat (length (stream objs)))
               \/ (e = PicklingError /\ ~ Forall picklable objs))
       end.
Proof.
  intros Hi Hres Hc objs.
  rewrite (execute_send_resolved func args kwargs st func' b st0 p Hi Hres Hc).
  fold objs.
  destruct (dump_objects_spec objs (at_cursor 0 (w_shm (world st0)) st0) 0)
    as (r & p' & shm' & Hrun & Hb & Hfr & Hr); [reflexivity|].
  simpl in Hfr.
  destruct r as [[]|e].
  - destruct Hr as (Hp' & Hs' & Hlim & Hall).
    exists (Ok tt), p', shm', (sent b p' shm' st0).
    split.
    { rewrite (bind_ok _ _ _ _ _ Hrun). unfold sent.
      change (at_cursor p' shm' (at_cursor 0 (w_shm (world st0)) st0))
        with (at_cursor p' shm' st0).
      destruct b; reflexivity. }
    split; [lia|]. split; [intros i Hge; apply Hfr; lia|].
    split; [reflexivity|]. split; [lia|].
    split; [destruct Hlim as [Hnil|Hlim]; [discriminate|exact Hlim]|].
    split; [exact Hs'|exact Hall].
  - exists (Raise e), p', shm', (at_cursor p' shm' st0).
    split; [rewrite (bind_raise _ _ _ _ _ Hrun); reflexivity|].
    split; [lia|]. split; [intros i Hge; apply Hfr; lia|].
    split; [reflexivity|].
    destruct Hr as [(He & Hlim)|(He & Hnot)]; [left|right]; split; try assumption; lia.
Qed.

(** C1 (the code departs from the claim): the test of line 237 compares
    the cursor with [BFSZ - RET_OFFSET], the size of the return region,
    not with the capacity [RET_OFFSET] of the payload region.  A request
    of a size from 2,000,000 up to, and not including, 8,000,000 bytes
    is below the capacity, and [run] raises instead of returning the
    callable's value. *)
Theorem run_rejects_payload_below_capacity (func args kwargs : Obj) (st : St Obj) (p : Z) :
  intno (self st) <> IdNone ->
  chan st p ->
  obj_module func <> Some "__main__" ->
  picklable func -> picklable args -> picklable (kwargs_or_empty (Some kwargs)) ->
  BFSZ - RET_OFFSET
    <= Z.of_nat (length (stream [func; args; kwargs_or_empty (Some kwargs)]))
    < RET_OFFSET ->
  exists st', run func args kwargs st = (Raise (RuntimeError payload_msg), st').
Proof.
  intros Hi Hc Hm Hf Ha Hk Hsize.
  destruct (execute_send_spec func args (Some kwargs) st func false st p Hi
              (resolve_main_importable func st Hm) Hc)
    as (r & p' & shm' & st1 & Hsend & Hb & _ & Hr).
  destruct r as [[]|e].
  - destruct Hr as (_ & Hp' & Hlim & _). lia.
  - destruct Hr as (_ & [(He & _)|(_ & Hnot)]).
    + subst e. exists st1. unfold run, execute.
      apply bind_raise, bind_raise, Hsend.
    + exfalso. apply Hnot. repeat constructor; assumption.
Qed.

(** What an oversize request does keep: a request whose pickles reach
    [RET_OFFSET] bytes makes [execute] raise the payload [RuntimeError]
    before the trigger, and once the callable is resolved nothing is sent
    to the worker: the object and the environment are those of the
    resolved state but for the cursor and the bytes before it.  The bytes
    at or after the cursor are untouched; the flag at [RET_OFFSET] is among
    them only when the cursor stopped at or before it. *)
Theorem execute_oversize_cancelled (func args : Obj) (kwargs : option Obj)
    (st : St Obj) (func' : Obj) (b : bool) (st0 : St Obj) (p : Z) :
  intno (self st) <> IdNone ->
  resolve_main func st = (Ok (func', b), st0) ->
  chan st0 p ->
  picklable func' -> picklable args -> picklable (kwargs_or_empty kwargs) ->
  RET_OFFSET <= Z.of_nat (length (stream [func'; args; kwargs_or_empty kwargs])) ->
  exists p' shm',
    execute func args kwargs st
    = (Raise (RuntimeError payload_msg), at_cursor p' shm' st0)
    /\ w_trace (world (at_cursor p' shm' st0)) = w_trace (world st0)
    /\ (exists evs, w_trace (world st0) = w_trace (world st) ++ evs
                    /\ Forall replication_event evs)
    /\ 0 <= p'
    /\ (forall i, p' <= i -> shm' i = w_shm (world st) i)
    /\ (p' <= RET_OFFSET ->
        done (at_cursor p' shm' st0)
        = (Ok (negb (Byte.eqb (w_shm (world st) RET_OFFSET) x00)), at_cursor p' shm' st0)).
Proof.
  intros Hi Hres Hc Hf Ha Hk Hsize.
  pose proof (keeps_resolve_main func st _ _ Hres) as Hfr.
  destruct (execute_send_spec func args kwargs st func' b st0 p Hi Hres Hc)
    as (r & p' & shm' & st1 & Hsend & Hb & Hsame & Hr).
  destruct r as [[]|e].
  - destruct Hr as (_ & Hp' & Hlim & _). unfold BFSZ, RET_OFFSET in *. lia.
  - destruct Hr as (Hst1 & [(He & _)|(_ & Hnot)]);
      [|exfalso; apply Hnot; repeat constructor; assumption].
    subst e st1. exists p', shm'.
    split; [unfold execute; apply bind_raise, Hsend|].
    split; [reflexivity|].
    split; [apply (frame_trace _ _ Hfr)|].
    split; [lia|].
    assert (Hshm : forall i, p' <= i -> shm' i = w_shm (world st) i).
    { intros i Hge. rewrite (Hsame i Hge), (frame_shm _ _ Hfr). reflexivity. }
    split; [exact Hshm|].
    intros Hle.
    rewrite (done_live (at_cursor p' shm' st0) p' eq_refl). simpl.
    rewrite (Hshm RET_OFFSET Hle). reflexivity.
Qed.

(** C2 (the code departs from the claim): [pickle.dump] writes each object
    straight into the map, and the size test of line 237 comes after the
    write.  When the callable's pickle ends below [BFSZ - RET_OFFSET] and
    the pickle of [args] runs past [RET_OFFSET] and fits the map, the
    request is one of at least [RET_OFFSET] bytes, [execute] raises the
    payload error without sending the trigger, and by then the bytes of
    [args] lie over the flag: where the byte that lands on [RET_OFFSET] is
    not zero, [done()] was false before the cancelled call and is true
    after it. *)
Theorem oversize_payload_overwrites_flag (func args : Obj) (kwargs : option Obj)
    (st : St Obj) (p : Z) (cf ca : list (list byte)) :
  intno (self st) <> IdNone ->
  chan st p ->
  obj_module func <> Some "__main__" ->
  pickle_dump func = Some cf ->
  pickle_dump args = Some ca ->
  Z.of_nat (length (concat cf)) < BFSZ - RET_OFFSET ->
  RET_OFFSET < Z.of_nat (length (concat cf)) + Z.of_nat (length (concat ca)) <= BFSZ ->
  nth (Z.to_nat (RET_OFFSET - Z.of_nat (length (concat cf)))) (concat ca) x00 <> x00 ->
  done st = (Ok false, st) ->
  RET_OFFSET <= Z.of_nat (length (stream [func; args; kwargs_or_empty kwargs]))
  /\ exists st',
       execute func args kwargs st = (Raise (RuntimeError payload_msg), st')
       /\ w_trace (world st') = w_trace (world st)
       /\ done st' = (Ok true, st').
Proof.
  intros Hi Hc Hm Hdf Hda Hsmall Hspan Hbyte _.
  split.
  { unfold stream. cbn [flat_map]. unfold dumped at 1 2. rewrite Hdf, Hda.
    rewrite !length_app. lia. }
  set (kw := kwargs_or_empty kwargs).
  set (st0 := at_cursor 0 (w_shm (world st)) st).
  assert (Hc0 : chan st0 0) by reflexivity.
  destruct (dump_objects_under func [args; kw] st0 0 cf Hc0 Hdf ltac:(lia))
    as (shm1 & Hstep1 & _).
  set (p1 := 0 + Z.of_nat (length (concat cf))) in *.
  assert (Hc1 : chan (at_cursor p1 shm1 st0) p1) by reflexivity.
  destruct (dump_objects_over args [kw] (at_cursor p1 shm1 st0) p1 ca Hc1 Hda
              ltac:(unfold p1; lia)
              ltac:(unfold p1; unfold BFSZ, RET_OFFSET in *; lia))
    as (shm2 & Hstep2 & Hshm2).
  set (p2 := p1 + Z.of_nat (length (concat ca))) in *.
  assert (Hflag : shm2 RET_OFFSET
                  = nth (Z.to_nat (RET_OFFSET - Z.of_nat (length (concat cf))))
                        (concat ca) x00).
  { rewrite Hshm2.
    pose proof (shm_store_inside (w_shm (world (at_cursor p1 shm1 st0))) p1 (concat ca)
                  (Z.to_nat (RET_OFFSET - Z.of_nat (length (concat cf))))
                  ltac:(unfold BFSZ, RET_OFFSET in *; lia)) as Hin.
    replace (p1 + Z.of_nat (Z.to_nat (RET_OFFSET - Z.of_nat (length (concat cf)))))
      with RET_OFFSET in Hin by (unfold p1; unfold BFSZ, RET_OFFSET in *; lia).
    exact Hin. }
  exists (at_cursor p2 shm2 (at_cursor p1 shm1 st0)). split; [|split].
  - unfold execute. apply bind_raise.
    rewrite (execute_send_resolved func args kwargs st func false st p Hi
               (resolve_main_importable func st Hm) Hc).
    fold st0 kw. apply bind_raise. rewrite Hstep1. exact Hstep2.
  - reflexivity.
  - rewrite (done_live (at_cursor p2 shm2 (at_cursor p1 shm1 st0)) p2 eq_refl).
    cbn [world at_cursor w_shm set_shm]. rewrite Hflag.
    destruct (Byte.eqb _ x00) eqn:He; [|reflexivity].
    exfalso. apply Hbyte. apply Byte.byte_dec_bl. exact He.
Qed.

(** C3 (the code departs from the claim): line 228 compares the flag with
    zero and drops the result; nothing in [execute] writes the flag
    before the trigger.  Once a call has completed, the flag is still set
    when the next request has been written and the worker has not run:
    [done()] is true before remote completion. *)
Theorem done_true_before_remote_completion (func args : Obj) (kwargs : option Obj)
    (st st1 : St Obj) :
  done st = (Ok true, st) ->
  execute_send func args kwargs st = (Ok tt, st1) ->
  done st1 = (Ok true, st1).
Proof.
  intros Hd Hsend.
  destruct (done_inv _ _ _ Hd) as (_ & _ & Hflag).
  destruct (execute_send_ok_inv _ _ _ _ _ Hsend) as (func' & b & st0 & p & Hi & Hres & Hc).
  pose proof (keeps_resolve_main func st _ _ Hres) as Hfr.
  destruct (execute_send_spec func args kwargs st func' b st0 p Hi Hres Hc)
    as (r & p' & shm' & st1' & Hsend' & Hb & Hsame & Hr).
  rewrite Hsend in Hsend'. inversion Hsend'; subst r st1'; clear Hsend'.
  destruct Hr as (Hst1 & _ & Hlim & _).
  destruct (sent_chan b p' shm' st0) as [Hc1 Hshm1]. rewrite <- Hst1 in Hc1, Hshm1.
  rewrite (done_live st1 p' Hc1), Hshm1.
  rewrite (Hsame RET_OFFSET) by (unfold BFSZ, RET_OFFSET in *; lia).
  rewrite (frame_shm _ _ Hfr), <- Hflag. reflexivity.
Qed.



(** C5 (the code departs from the claim): line 274 tests the bound method
    [self.done], which is always true, so the check never fires.  With
    the flag unset, [result()] goes on to unpickle the return region: it
    returns what the unpickler makes of those bytes or raises the
    unpickler's error, never an invalid-state error. *)
Theorem result_skips_completion_check (st : St Obj) (r : res Obj) (st' : St Obj) :
  done st = (Ok false, st) ->
  result st = (r, st') ->
  match r with
  | Ok v => exists n, pickle_load (shm_view (w_shm (world st)) RET_OFFSET) = Some (v, n)
  | Raise e => e = UnpicklingError \/ e = AttributeError "thread"
  end.
Proof.
  intros Hd. destruct (done_inv _ _ _ Hd) as (_ & (p & Hc) & _).
  unfold result. simpl.
  unfold map_seek, pickle_load_map, live_map, bind, getattr, get, ret, raise,
    modify_self.
  unfold chan in Hc. rewrite Hc. simpl.
  destruct (pickle_load (shm_view (w_shm (world st)) RET_OFFSET)) as [[o n]|].
  - simpl. destruct (thread (self st)) as [|[t|]]; intros Hr; inversion Hr; subst.
    + right. reflexivity.
    + exists n. reflexivity.
    + exists n. reflexivity.
  - intros Hr. inversion Hr; subst. left. reflexivity.
Qed.

(** *** The round trip below the threshold *)

Lemma shm_view_drop (shm : Z -> byte) (q : Z) (k : nat) :
  Z.of_nat k <= BFSZ - q ->
  shm_view shm (q + Z.of_nat k) = drop k (shm_view shm q).
Proof.
  intros Hk. unfold shm_view.
  replace (Z.to_nat (BFSZ - q)) with (k + Z.to_nat (BFSZ - (q + Z.of_nat k)))%nat by lia.
  rewrite seq_app, map_app.
  rewrite drop_app_length' by (rewrite length_map, length_seq; reflexivity).
  symmetry. apply view_shift.
Qed.

(** The worker reads back the three objects the controller wrote. *)
Lemma thaw_stream (shm shm0 : Z -> byte) (func args kw : Obj) :
  (forall i, shm i = shm_store shm0 0 (stream [func; args; kw]) i) ->
  Z.of_nat (length (stream [func; args; kw])) <= BFSZ ->
  picklable func -> picklable args -> picklable kw ->
  _thaw shm 0 = Ok (func, args, kw).
Proof.
  intros Hshm Hfit Hf Ha Hk. unfold picklable in *.
  destruct (pickle_dump func) as [cf|] eqn:Hdf; [|congruence].
  destruct (pickle_dump args) as [ca|] eqn:Hda; [|congruence].
  destruct (pickle_dump kw) as [ck|] eqn:Hdk; [|congruence].
  assert (Hstr : stream [func; args; kw] = concat cf ++ concat ca ++ concat ck).
  { unfold stream. cbn [flat_map]. unfold dumped. rewrite Hdf, Hda, Hdk.
    rewrite app_nil_r. reflexivity. }
  rewrite Hstr in Hshm, Hfit. rewrite !length_app in Hfit.
  assert (Hview : shm_view shm 0
                  = concat cf ++ concat ca ++ concat ck
                    ++ shm_view shm (0 + Z.of_nat (length (concat cf ++ concat ca ++ concat ck)))).
  { rewrite (shm_view_prefix shm 0 (concat cf ++ concat ca ++ concat ck)).
    - rewrite <- !app_assoc. reflexivity.
    - rewrite !length_app. lia.
    - intros i Hi. rewrite Hshm. apply shm_store_inside. exact Hi. }
  set (rest := shm_view shm (0 + Z.of_nat (length (concat cf ++ concat ca ++ concat ck))))
    in Hview.
  unfold _thaw. simpl negb. cbv iota.
  rewrite Hview. rewrite (pickle_load_dump func cf _ Hdf).
  rewrite (shm_view_drop shm 0 (length (concat cf))) by lia.
  rewrite Hview, drop_app_length.
  rewrite (pickle_load_dump args ca _ Hda).
  replace (0 + Z.of_nat (length (concat cf)) + Z.of_nat (length (concat ca)))
    with (0 + Z.of_nat (length (concat cf ++ concat ca)))
    by (rewrite length_app; lia).
  rewrite (shm_view_drop shm 0 (length (concat cf ++ concat ca)))
    by (rewrite length_app; lia).
  rewrite Hview, app_assoc, drop_app_length.
  rewrite (pickle_load_dump kw ck _ Hdk). reflexivity.
Qed.

Lemma call_stream (shm : Z -> byte) (func args kw v : Obj) (cv : list (list byte)) :
  _thaw shm 0 = Ok (func, args, kw) ->
  call func args kw = Ok v ->
  pickle_dump v = Some cv ->
  RET_OFFSET + Z.of_nat (length (concat cv)) <= BFSZ ->
  exists shm',
    _call shm 0 = (Ok tt, shm')
    /\ forall i, shm' i = shm_store shm RET_OFFSET (concat cv) i.
Proof.
  intros Ht Hcall Hd Hfit. unfold _call. rewrite Ht, Hcall, Hd.
  pose proof (buf_write_chunks_spec cv shm RET_OFFSET) as Hw.
  destruct (buf_write_chunks shm RET_OFFSET cv) as [[ok shm'] p'].
  destruct Hw as (_ & _ & Hok).
  destruct ok; [|lia].
  exists shm'. split; [reflexivity|apply Hok].
Qed.



End Execute.

(** ** Replication of the interactive environment *)

Section Replication.
Context {Obj : Type} `{Python Obj}.

(** Whatever the worker answers, [run_string] records the code and
    leaves the object as it is. *)
Lemma run_string_logged (c : Code) (st : St Obj) :
  replication_code c ->
  exists r, run_string c st = (r, logged (intno (self st)) c st).
Proof.
  intros Hc. unfold run_string, interpreters_run_string, log, bind, get,
    modify_world, raise, ret, logged. simpl.
  destruct (intno (self st)); try (eexists; reflexivity).
  destruct (negb _); [eexists; reflexivity|].
  destruct (bool_decide _); [eexists; reflexivity|].
  destruct c; simpl in Hc; try contradiction;
    destruct (w_remote_exec _ _); eexists; reflexivity.
Qed.

(** On a live, idle worker the answer is the worker's. *)
Lemma run_string_live (c : Code) (st : St Obj) (n : nat) :
  replication_code c ->
  intno (self st) = IdNum n ->
  n ∈ w_live (world st) ->
  n ∉ w_running (world st) ->
  run_string c st =
    (match w_remote_exec (world st) c with
     | None => Ok tt
     | Some msg => Raise (RunFailedError msg)
     end, logged (IdNum n) c st).
Proof.
  intros Hc Hi Hlive Hidle. unfold run_string, interpreters_run_string, log, bind,
    get, modify_world, raise, ret, logged. simpl. rewrite Hi. simpl.
  rewrite (bool_decide_eq_true_2 _ Hlive), (bool_decide_eq_false_2 _ Hidle). simpl.
  destruct c; simpl in Hc; try contradiction;
    destruct (w_remote_exec _ _); reflexivity.
Qed.

(** C7, as the code has it: what [_source_handle] keeps under a name is
    [hash(func)], the hash of the function object, not a fingerprint of
    its source.  With the function's name recorded under its current
    [hash], nothing is sent and nothing changes; with the name recorded
    under anything else, the source is sent again and, when the worker
    accepts it, the new [hash] is recorded; and a call that returned makes
    the next one a no-op. *)
Theorem source_handle_ships_once (func : Obj) (st : St Obj)
    (cache : gmap string CacheVal) :
  source_handled (self st) = Bound cache ->
  (cache !! obj_name func = Some (CHash (obj_hash func)) ->
   _source_handle func st = (Ok tt, st))
  /\ (forall v source,
        cache !! obj_name func = Some v ->
        v <> CHash (obj_hash func) ->
        getsource func = Ok source ->
        exists r st',
          _source_handle func st = (r, st')
          /\ w_trace (world st')
             = w_trace (world st) ++ [EvRun (intno (self st)) (CodeSource source)]
          /\ (r = Ok tt ->
              source_handled (self st')
              = Bound (<[ obj_name func := CHash (obj_hash func) ]> cache)))
  /\ (forall st', _source_handle func st = (Ok tt, st') ->
                  _source_handle func st' = (Ok tt, st')).
Proof.
  intros Hsh.
  assert (Hhit : forall (s : St Obj) (c : gmap string CacheVal),
             source_handled (self s) = Bound c ->
             c !! obj_name func = Some (CHash (obj_hash func)) ->
             _source_handle func s = (Ok tt, s)).
  { intros s c Hs Hl. unfold _source_handle, bind, getattr. rewrite Hs, Hl.
    rewrite Z.eqb_refl. reflexivity. }
  assert (Hmiss : forall source,
             (match cache !! obj_name func with
              | Some (CHash h) => obj_hash func =? h
              | Some CModule => false
              | None => false
              end) = false ->
             getsource func = Ok source ->
             exists r st',
               _source_handle func st = (r, st')
               /\ w_trace (world st')
                  = w_trace (world st) ++ [EvRun (intno (self st)) (CodeSource source)]
               /\ (r = Ok tt ->
                   source_handled (self st')
                   = Bound (<[ obj_name func := CHash (obj_hash func) ]> cache))).
  { intros source Hh Hsrc.
    destruct (run_string_logged (CodeSource source) st I) as (r1 & Hrun).
    unfold _source_handle. unfold bind at 1. unfold getattr at 1.
    rewrite Hsh, Hh, Hsrc.
    destruct r1 as [[]|e].
    - rewrite (bind_ok _ _ _ _ _ Hrun).
      unfold bind, getattr, modify_self, logged. simpl. rewrite Hsh.
      eexists _, _. split; [reflexivity|]. split; [reflexivity|].
      intros _. reflexivity.
    - rewrite (bind_raise _ _ _ _ _ Hrun).
      eexists _, _. split; [reflexivity|]. split; [reflexivity|].
      intros Hr. discriminate. }
  split; [apply Hhit; exact Hsh|]. split.
  - intros v source Hl Hv Hsrc. apply Hmiss; [|exact Hsrc].
    rewrite Hl. destruct v as [h|]; [|reflexivity].
    destruct (Z.eqb_spec (obj_hash func) h) as [Heq|Hne]; [congruence|reflexivity].
  - intros st' Hr.
    destruct (match cache !! obj_name func with
              | Some (CHash h) => obj_hash func =? h
              | Some CModule => false
              | None => false
              end) eqn:Hh.
    + assert (Hl : cache !! obj_name func = Some (CHash (obj_hash func))).
      { destruct (cache !! obj_name func) as [[h|]|]; try discriminate.
        apply Z.eqb_eq in Hh. subst. reflexivity. }
      rewrite (Hhit st cache Hsh Hl) in Hr. inversion Hr; subst.
      apply (Hhit st' cache Hsh Hl).
    + unfold _source_handle in Hr. unfold bind at 1 in Hr. unfold getattr at 1 in Hr.
      rewrite Hsh, Hh in Hr.
      destruct (getsource func) as [source|e] eqn:Hsrc; [|discriminate].
      destruct (Hmiss source eq_refl eq_refl) as (r & st2 & Hrun & _ & Hrec).
      unfold _source_handle in Hrun. unfold bind at 1 in Hrun.
      unfold getattr at 1 in Hrun. rewrite Hsh, Hh, Hsrc in Hrun.
      rewrite Hr in Hrun. inversion Hrun; subst r st2.
      apply (Hhit st' _ (Hrec eq_refl)). apply lookup_insert_eq.
Qed.

(** C8 (the code departs from the claim): the guard of line 194 tests the
    name of the callable being shipped, which line 182 has just recorded,
    instead of the binding's name.  It is never true, so no run of
    [_prepare_interactive] sends a [getattr] assignment: all it sends
    are sources, imports and module aliases. *)
Theorem imported_function_alias_never_bound (func : Obj) (st : St Obj) :
  exists evs,
    w_trace (world (snd (_prepare_interactive func st))) = w_trace (world st) ++ evs
    /\ Forall replication_event evs
    /\ forall i name mod_name attr_name,
         ~ In (EvRun i (CodeGetattr name mod_name attr_name)) evs.
Proof.
  destruct (_prepare_interactive func st) as [r st'] eqn:Hr.
  destruct (frame_trace _ _ (keeps_prepare_interactive func st r st' Hr))
    as (evs & Ht & Hall).
  exists evs. split; [exact Ht|]. split; [exact Hall|].
  intros i name mod_name attr_name Hin.
  rewrite Forall_forall in Hall.
  apply (Hall _ (proj2 (list_elem_of_In _ _) Hin)).
Qed.

(** The part of C9 that [_handle_module] carries out: a failed import is
    swallowed and nothing is recorded for the module. *)
Lemma handle_module_swallows_failure (m : string) (st : St Obj) (n : nat)
    (cache : gmap string CacheVal) (msg : string) :
  source_handled (self st) = Bound cache ->
  str_truthy m = true ->
  m ∉ dom cache ->
  intno (self st) = IdNum n ->
  n ∈ w_live (world st) ->
  n ∉ w_running (world st) ->
  w_remote_exec (world st) (CodeImport m) = Some msg ->
  _handle_module (Some m) st = (Ok tt, logged (IdNum n) (CodeImport m) st).
Proof.
  intros Hsh Hm Hnew Hi Hlive Hidle Hfail.
  unfold _handle_module. rewrite Hm. simpl.
  unfold bind at 1. unfold getattr at 1. rewrite Hsh.
  rewrite (bool_decide_eq_false_2 _ Hnew).
  pose proof (run_string_live (CodeImport m) st n I Hi Hlive Hidle) as Hrun.
  rewrite Hfail in Hrun.
  unfold try_except. rewrite (bind_raise _ _ _ _ _ Hrun). reflexivity.
Qed.

(** C9 (the code departs from the claim): [_handle_module] swallows the
    failed import, but for a module bound under another name the loop
    goes on to send the alias assignment (lines 199-200) without looking
    at whether the import succeeded.  In a worker where the module did
    not load that assignment fails too, outside any [try]: the error
    reaches the caller and the bindings after it are not replicated. *)
Theorem failed_import_of_aliased_module_aborts (func : Obj) (name : string)
    (obj : Obj) (rest : list (string * Obj)) (st : St Obj) (n : nat)
    (cache : gmap string CacheVal) (msg msg' : string) :
  source_handled (self st) = Bound cache ->
  obj_kind obj = KModule ->
  str_truthy (obj_name obj) = true ->
  obj_name obj ∉ dom cache ->
  obj_name obj <> name ->
  name ∉ dom cache ->
  intno (self st) = IdNum n ->
  n ∈ w_live (world st) ->
  n ∉ w_running (world st) ->
  w_remote_exec (world st) (CodeImport (obj_name obj)) = Some msg ->
  w_remote_exec (world st) (CodeAlias name (obj_name obj)) = Some msg' ->
  exists st',
    prepare_bindings func ((name, obj) :: rest) st = (Raise (RunFailedError msg'), st')
    /\ source_handled (self st') = Bound cache
    /\ w_trace (world st')
       = w_trace (world st)
         ++ [EvRun (IdNum n) (CodeImport (obj_name obj));
             EvRun (IdNum n) (CodeAlias name (obj_name obj))].
Proof.
  intros Hsh Hk Hm Hnew Hne Hname Hi Hlive Hidle Hfail Hfail'.
  set (st1 := logged (IdNum n) (CodeImport (obj_name obj)) st).
  pose proof (handle_module_swallows_failure _ st n cache msg
                Hsh Hm Hnew Hi Hlive Hidle Hfail) as Hmod.
  fold st1 in Hmod.
  pose proof (run_string_live (CodeAlias name (obj_name obj)) st1 n I Hi Hlive Hidle)
    as Hrun.
  change (w_remote_exec (world st1)) with (w_remote_exec (world st)) in Hrun.
  rewrite Hfail' in Hrun.
  exists (logged (IdNum n) (CodeAlias name (obj_name obj)) st1).
  split; [|split].
  - cbn [prepare_bindings]. apply bind_raise.
    unfold prepare_binding. rewrite Hk.
    rewrite (bind_ok _ _ _ _ _ Hmod).
    unfold bind at 1. unfold getattr at 1.
    change (source_handled (self st1)) with (source_handled (self st)). rewrite Hsh.
    rewrite (bool_decide_eq_false_2 _ Hne), (bool_decide_eq_false_2 _ Hname).
    exact Hrun.
  - exact Hsh.
  - unfold logged, st1. simpl. rewrite <- app_assoc. reflexivity.
Qed.

End Replication.

(** ** The worker of the small universe, step by step *)

Module ScenarioChecks.
Import Toy Scenario.

Example start_fresh : start fresh = (Ok tt, started).
Proof. vm_compute. reflexivity. Qed.

Example close_started : close started = (Ok tt, closed).
Proof. reflexivity. Qed.

Example run_len : fst (run (TFunc FnLen) (TTuple [x01; x02; x03]) TDict started) = Ok (TInt x03).
Proof. reflexivity. Qed.

Example send_again :
  execute_send (TFunc FnFail) (TTuple [x01]) None after_run = (Ok tt, resent).
Proof. reflexivity. Qed.

(** In the session, [f]'s source and the imports are sent; the alias
    [first] is bound nowhere. *)
Example session_trace :
  fst (_prepare_interactive (TFunc (FnMain "f" 11)) session) = Ok tt
  /\ w_trace (world (snd (_prepare_interactive (TFunc (FnMain "f" 11)) session)))
     = [EvCreate 1; EvRun (IdNum 1) (CodeInit 0);
        EvRun (IdNum 1) (CodeSource "def f(*a): return {}");
        EvRun (IdNum 1) (CodeImport "numpy");
        EvRun (IdNum 1) (CodeAlias "np" "numpy");
        EvRun (IdNum 1) (CodeImport "toylib")].
Proof. split; vm_compute; reflexivity. Qed.

(** Where [numpy] fails, replication stops at the alias [np]: [toylib] is
    never imported and the error reaches the caller. *)
Example session_numpy_trace :
  fst (_prepare_interactive (TFunc (FnMain "f" 11)) session_numpy)
  = Raise (RunFailedError "NameError")
  /\ w_trace (world (snd (_prepare_interactive (TFunc (FnMain "f" 11)) session_numpy)))
     = [EvCreate 1; EvRun (IdNum 1) (CodeInit 0);
        EvRun (IdNum 1) (CodeSource "def f(*a): return {}");
        EvRun (IdNum 1) (CodeImport "numpy");
        EvRun (IdNum 1) (CodeAlias "np" "numpy")].
Proof. split; vm_compute; reflexivity. Qed.

End ScenarioChecks.

(** ** The theorems at work on the small universe *)

Lemma length_dump_items (items : list byte) :
  length (Toy.dump_items items) = (2 * length items)%nat.
Proof. induction items as [|x items IH]; simpl; [reflexivity|]. rewrite IH. lia. Qed.

Lemma nth_dump_items_even (items : list byte) :
  forall k : nat,
    (k < length items)%nat ->
    nth (2 * k) (Toy.dump_items items) x00 = Toy.BININT1.
Proof.
  induction items as [|x items IH]; intros k Hk; simpl in Hk; [lia|].
  destruct k as [|k].
  - reflexivity.
  - replace (2 * S k)%nat with (S (S (2 * k))) by lia.
    cbn [Toy.dump_items nth]. apply IH. lia.
Qed.

Lemma dumped_big_tuple (n : nat) :
  pickle_dump (Scenario.big_tuple n)
  = Some [[Toy.MARK]; Toy.dump_items (repeat x01 n); [Toy.TUPLE; Toy.STOP]].
Proof. reflexivity. Qed.

Lemma length_concat_big_tuple (n : nat) :
  length (concat [[Toy.MARK]; Toy.dump_items (repeat x01 n); [Toy.TUPLE; Toy.STOP]])
  = (2 * n + 3)%nat.
Proof.
  cbn [concat]. rewrite !length_app, length_dump_items, repeat_length. simpl. lia.
Qed.

Lemma length_stream_big (n : nat) :
  length (stream [Toy.TFunc Toy.FnLen; Scenario.big_tuple n; Toy.TDict])
  = (2 * n + 8)%nat.
Proof.
  unfold stream. cbn [flat_map]. unfold dumped.
  rewrite dumped_big_tuple. cbn [pickle_dump Toy.toy_python Toy.t_dump Toy.fn_tag].
  rewrite !length_app, length_concat_big_tuple. simpl. lia.
Qed.

(** The byte of the tuple's pickle that lands on [RET_OFFSET] when the
    pickle starts at offset 3. *)
Lemma big_tuple_byte_at_flag (n : nat) :
  3999998 < Z.of_nat n ->
  nth (Z.to_nat (RET_OFFSET - 3))
      (concat [[Toy.MARK]; Toy.dump_items (repeat x01 n); [Toy.TUPLE; Toy.STOP]]) x00
  = Toy.BININT1.
Proof.
  intros Hn.
  replace (Z.to_nat (RET_OFFSET - 3)) with (S (2 * Z.to_nat 3999998))
    by (unfold RET_OFFSET; lia).
  cbn [concat app nth].
  rewrite app_nth1 by (rewrite length_dump_items, repeat_length; lia).
  apply nth_dump_items_even. rewrite repeat_length. lia.
Qed.

Lemma run_rejects_payload_below_capacity_witness :
  exists st',
    run (Toy.TFunc Toy.FnLen) (Scenario.big_tuple (Z.to_nat 1000000)) Toy.TDict
        Scenario.started
    = (Raise (RuntimeError payload_msg), st').
Proof.
  apply (run_rejects_payload_below_capacity
           (Toy.TFunc Toy.FnLen) (Scenario.big_tuple (Z.to_nat 1000000)) Toy.TDict
           Scenario.started 0).
  - discriminate.
  - reflexivity.
  - discriminate.
  - discriminate.
  - discriminate.
  - discriminate.
  - change (kwargs_or_empty (Some Toy.TDict)) with Toy.TDict.
    rewrite length_stream_big. unfold BFSZ, RET_OFFSET. lia.
Defined.

Lemma oversize_payload_overwrites_flag_witness :
  RET_OFFSET
    <= Z.of_nat (length (stream [Toy.TFunc Toy.FnLen;
                                 Scenario.big_tuple (Z.to_nat 4500000);
                                 kwargs_or_empty (Some Toy.TDict)]))
  /\ exists st',
       execute (Toy.TFunc Toy.FnLen) (Scenario.big_tuple (Z.to_nat 4500000))
               (Some Toy.TDict) Scenario.started
       = (Raise (RuntimeError payload_msg), st')
       /\ w_trace (world st') = w_trace (world Scenario.started)
       /\ done st' = (Ok true, st').
Proof.
  set (n := Z.to_nat 4500000).
  assert (Hn : Z.of_nat n = 4500000) by (unfold n; lia).
  clearbody n.
  assert (Hi : intno (self Scenario.started) <> IdNone) by discriminate.
  assert (Hm : obj_module (Toy.TFunc Toy.FnLen) <> Some "__main__") by discriminate.
  assert (Hdf : pickle_dump (Toy.TFunc Toy.FnLen) = Some [[Toy.GLOBAL; x01; Toy.STOP]])
    by reflexivity.
  assert (Hsmall : Z.of_nat (length (concat [[Toy.GLOBAL; x01; Toy.STOP]]))
                   < BFSZ - RET_OFFSET)
    by (unfold BFSZ, RET_OFFSET; simpl; lia).
  assert (Hspan : RET_OFFSET
                  < Z.of_nat (length (concat [[Toy.GLOBAL; x01; Toy.STOP]]))
                    + Z.of_nat (length (concat [[Toy.MARK];
                                                Toy.dump_items (repeat x01 n);
                                                [Toy.TUPLE; Toy.STOP]]))
                  <= BFSZ).
  { rewrite length_concat_big_tuple. unfold BFSZ, RET_OFFSET. simpl length. lia. }
  assert (Hbyte : nth (Z.to_nat (RET_OFFSET
                                 - Z.of_nat (length (concat [[Toy.GLOBAL; x01; Toy.STOP]]))))
                      (concat [[Toy.MARK]; Toy.dump_items (repeat x01 n);
                               [Toy.TUPLE; Toy.STOP]]) x00
                  <> x00).
  { change (Z.of_nat (length (concat [[Toy.GLOBAL; x01; Toy.STOP]]))) with 3.
    rewrite big_tuple_byte_at_flag by lia. discriminate. }
  exact (oversize_payload_overwrites_flag (Toy.TFunc Toy.FnLen) (Scenario.big_tuple n)
           (Some Toy.TDict) Scenario.started 0
           [[Toy.GLOBAL; x01; Toy.STOP]]
           [[Toy.MARK]; Toy.dump_items (repeat x01 n); [Toy.TUPLE; Toy.STOP]]
           Hi eq_refl Hm Hdf (dumped_big_tuple n) Hsmall Hspan Hbyte eq_refl).
Defined.

Lemma execute_oversize_cancelled_witness :
  exists p' shm',
    execute (Toy.TFunc Toy.FnLen) (Scenario.big_tuple (Z.to_nat 4500000))
            (Some Toy.TDict) Scenario.started
    = (Raise (RuntimeError payload_msg), at_cursor p' shm' Scenario.started)
    /\ w_trace (world (at_cursor p' shm' Scenario.started))
       = w_trace (world Scenario.started)
    /\ (exists evs, w_trace (world Scenario.started)
                    = w_trace (world Scenario.started) ++ evs
                    /\ Forall replication_event evs)
    /\ 0 <= p'
    /\ (forall i, p' <= i -> shm' i = w_shm (world Scenario.started) i)
    /\ (p' <= RET_OFFSET ->
        done (at_cursor p' shm' Scenario.started)
        = (Ok (negb (Byte.eqb (w_shm (world Scenario.started) RET_OFFSET) x00)),
           at_cursor p' shm' Scenario.started)).
Proof.
  apply (execute_oversize_cancelled
           (Toy.TFunc Toy.FnLen) (Scenario.big_tuple (Z.to_nat 4500000))
           (Some Toy.TDict) Scenario.started (Toy.TFunc Toy.FnLen) false
           Scenario.started 0).
  - discriminate.
  - reflexivity.
  - reflexivity.
  - discriminate.
  - discriminate.
  - discriminate.
  - change (kwargs_or_empty (Some Toy.TDict)) with Toy.TDict.
    rewrite length_stream_big. unfold RET_OFFSET. lia.
Defined.

Lemma done_true_before_remote_completion_witness :
  done Scenario.resent = (Ok true, Scenario.resent).
Proof.
  apply (done_true_before_remote_completion
           (Toy.TFunc Toy.FnFail) (Toy.TTuple [x01]) None
           Scenario.after_run Scenario.resent).
  - reflexivity.
  - reflexivity.
Defined.

Lemma result_skips_completion_check_witness :
  UnpicklingError = UnpicklingError \/ UnpicklingError = AttributeError "thread".
Proof.
  apply (result_skips_completion_check Scenario.started (Raise UnpicklingError)
           (snd (result Scenario.started))).
  - reflexivity.
  - reflexivity.
Defined.


Lemma source_handle_ships_once_witness :
  _source_handle (Toy.TFunc (Toy.FnMain "f" 11)) Scenario.session_numpy_shipped
  = (Ok tt, Scenario.session_numpy_shipped)
  /\ exists r st',
       _source_handle (Toy.TFunc (Toy.FnMain "f" 12)) Scenario.session_numpy_shipped
       = (r, st')
       /\ w_trace (world st')
          = w_trace (world Scenario.session_numpy_shipped)
            ++ [EvRun (IdNum 1) (CodeSource "def f(*a): return {}")]
       /\ (r = Ok tt ->
           source_handled (self st')
           = Bound (<[ "f" := CHash 12 ]> {[ "f" := CHash 11 ]})).
Proof.
  split.
  - apply (source_handle_ships_once (Toy.TFunc (Toy.FnMain "f" 11))
             Scenario.session_numpy_shipped {[ "f" := CHash 11 ]}).
    + reflexivity.
    + vm_compute. reflexivity.
  - apply (source_handle_ships_once (Toy.TFunc (Toy.FnMain "f" 12))
             Scenario.session_numpy_shipped {[ "f" := CHash 11 ]}
             ltac:(reflexivity)) with (v := CHash 11).
    + vm_compute. reflexivity.
    + discriminate.
    + reflexivity.
Defined.

(** C7, two sessions the claim does not survive.  In the first, [f] is
    typed again with the same source: the new function object has another
    [hash], and the source is shipped a second time.  In the second, the
    redefinition has another source and the [hash] of the function it
    replaced: nothing is shipped. *)
Lemma source_cache_ignores_content :
  (getsource (Toy.TFunc (Toy.FnMain "f" 11)) = getsource (Toy.TFunc (Toy.FnMain "f" 12))
   /\ exists st1 st2,
        _source_handle (Toy.TFunc (Toy.FnMain "f" 11)) Scenario.session_open = (Ok tt, st1)
        /\ _source_handle (Toy.TFunc (Toy.FnMain "f" 12)) st1 = (Ok tt, st2)
        /\ w_trace (world st2)
           = w_trace (world st1) ++ [EvRun (IdNum 1) (CodeSource "def f(*a): return {}")])
  /\ (@getsource Toy.TObj Scenario.reuse_python (Toy.TFunc (Toy.FnMain "f" 11))
      <> @getsource Toy.TObj Scenario.reuse_python (Toy.TFunc (Toy.FnMain "f" 12))
      /\ exists st1,
           @_source_handle Toy.TObj Scenario.reuse_python (Toy.TFunc (Toy.FnMain "f" 11))
             Scenario.session_open
           = (Ok tt, st1)
           /\ w_trace (world st1)
              = w_trace (world Scenario.session_open)
                ++ [EvRun (IdNum 1) (CodeSource "def f(*a): return {}")]
           /\ @_source_handle Toy.TObj Scenario.reuse_python (Toy.TFunc (Toy.FnMain "f" 12)) st1
              = (Ok tt, st1)).
Proof.
  split; split.
  - reflexivity.
  - eexists _, _. split; [vm_compute; reflexivity|]. split; vm_compute; reflexivity.
  - discriminate.
  - eexists. split; [vm_compute; reflexivity|]. split; vm_compute; reflexivity.
Qed.

Lemma imported_function_alias_never_bound_witness :
  exists evs,
    w_trace (world (snd (_prepare_interactive (Toy.TFunc (Toy.FnMain "f" 11))
                           Scenario.session)))
    = w_trace (world Scenario.session) ++ evs
    /\ In (EvRun (IdNum 1) (CodeImport "toylib")) evs
    /\ ~ In (EvRun (IdNum 1) (CodeGetattr "first" (Some "toylib") "first")) evs.
Proof.
  destruct (imported_function_alias_never_bound (Toy.TFunc (Toy.FnMain "f" 11))
              Scenario.session) as (evs & Ht & _ & Hno).
  exists evs. split; [exact Ht|]. split; [|apply Hno].
  rewrite (proj2 ScenarioChecks.session_trace) in Ht.
  change (w_trace (world Scenario.session))
    with [EvCreate 1; EvRun (IdNum 1) (CodeInit 0)] in Ht.
  injection Ht as <-. simpl. auto.
Defined.

Lemma failed_import_of_aliased_module_aborts_witness :
  exists st',
    prepare_bindings (Toy.TFunc (Toy.FnMain "f" 11)) Scenario.session_globals
                     Scenario.session_numpy_shipped
    = (Raise (RunFailedError "NameError"), st')
    /\ source_handled (self st') = Bound {[ "f" := CHash 11 ]}
    /\ w_trace (world st')
       = w_trace (world Scenario.session_numpy_shipped)
         ++ [EvRun (IdNum 1) (CodeImport "numpy");
             EvRun (IdNum 1) (CodeAlias "np" "numpy")].
Proof.
  refine (failed_import_of_aliased_module_aborts
            (Toy.TFunc (Toy.FnMain "f" 11)) "np" (Toy.TModule "numpy")
            [("first", Toy.TFunc Toy.FnFirst); ("f", Toy.TFunc (Toy.FnMain "f" 11))]
            Scenario.session_numpy_shipped 1 {[ "f" := CHash 11 ]}
            "ModuleNotFoundError" "NameError" _ _ _ _ _ _ _ _ _ _ _).
  - reflexivity.
  - reflexivity.
  - reflexivity.
  - set_solver.
  - discriminate.
  - set_solver.
  - reflexivity.
  - set_solver.
  - set_solver.
  - reflexivity.
  - reflexivity.
Defined.



(** * Further properties *)

(** ** Lifecycle: start, close, the finalizer and the registry *)

Section LifecycleMore.
Context {Obj : Type} `{Python Obj}.


Lemma start_ok_intno (st st' : St Obj) :
  start st = (Ok tt, st') ->
  intno (self st) = IdNone
  /\ intno (self st') = IdNum (w_next_id (world st))
  /\ obj_id (self st') = obj_id (self st)
  /\ obj_id (self st) ∈ w_registry (world st').
Proof.
  unfold start, _init_interpreter, interpreters_run_string, interpreters_create,
    tempfile_mktemp, open_zeroed, registry_add, log.
  unfold bind, get, getattr, modify_self, modify_world, ret, raise. simpl.
  intros Hr.
  repeat case_match; simplify_eq; simpl;
    (split; [reflexivity|]); (split; [reflexivity|]); (split; [reflexivity|]);
    set_solver.
Qed.

(** X2: a second [start()] on a started worker raises "Interpreter already
    started" and changes nothing: no second context, no second file. *)
Theorem start_twice_raises (st st' : St Obj) :
  start st = (Ok tt, st') ->
  start st' = (Raise (RuntimeError "Interpreter already started"), st').
Proof.
  intros Hs. destruct (start_ok_intno _ _ Hs) as (_ & Hi & _).
  unfold start, bind, get. rewrite Hi. reflexivity.
Qed.

Lemma not_in_without (X : gset nat) (n : nat) : n ∉ X ∖ {[ n ]}.
Proof.
  rewrite elem_of_difference, elem_of_singleton. intros [_ Hn]. apply Hn. reflexivity.
Qed.

(** What [close()] does up to the registry, on an idle worker. *)
Lemma close_idle_steps (st : St Obj) (n f : nat) (m : Mmap) (fo : FileObj) :
  intno (self st) = IdNum n ->
  n ∈ w_live (world st) ->
  n ∉ w_running (world st) ->
  map (self st) = Bound (Some m) ->
  file (self st) = Bound fo ->
  fname (self st) = Bound f ->
  f ∈ w_files (world st) ->
  exists st1,
    close st
    = try_except registry_remove (fun _ => Some (raise (NameError "keyError"))) st1
    /\ self st1
       = set_thread (Bound None)
           (set_intno IdFalse
              (set_map (Bound None)
                 (set_file (Bound {| f_name := f_name fo; f_closed := true |}) (self st))))
    /\ (w_live (world st1) = w_live (world st) ∖ {[ n ]})
    /\ (w_files (world st1) = w_files (world st) ∖ {[ f ]})
    /\ (w_registry (world st1) = w_registry (world st))
    /\ w_trace (world st1) = w_trace (world st) ++ [EvDestroy (IdNum n); EvUnlink f].
Proof.
  intros Hi Hlive Hidle Hm Hfo Hf Hfile.
  unfold close, close_release, interpreters_destroy, try_finally, map_close,
    file_close, os_unlink, log.
  unfold bind at 1. unfold get at 1. rewrite Hi.
  unfold bind at 1. unfold try_except at 1.
  unfold bind, get, getattr, modify_self, modify_world, ret, raise. simpl.
  rewrite (bool_decide_eq_true_2 _ Hlive), (bool_decide_eq_false_2 _ Hidle). simpl.
  rewrite Hm. simpl. rewrite Hfo. simpl. rewrite Hf. simpl.
  rewrite (bool_decide_eq_true_2 _ Hfile). simpl.
  eexists. split; [reflexivity|]. simpl.
  split; [reflexivity|]. split; [reflexivity|]. split; [reflexivity|].
  split; [reflexivity|]. rewrite <- app_assoc. reflexivity.
Qed.

(** X3: [close()] on a started, idle, registered worker returns, and by
    then the context is destroyed, the map and the file are closed, the
    file is unlinked, [intno] is [False], [map] and [thread] are [None]
    and the object has left the registry; exactly one [destroy] and one
    [unlink] were issued, in that order. *)
Theorem close_idle_worker (st : St Obj) (n f : nat) (m : Mmap) (fo : FileObj) :
  intno (self st) = IdNum n ->
  n ∈ w_live (world st) ->
  n ∉ w_running (world st) ->
  map (self st) = Bound (Some m) ->
  file (self st) = Bound fo ->
  fname (self st) = Bound f ->
  f ∈ w_files (world st) ->
  obj_id (self st) ∈ w_registry (world st) ->
  exists st',
    close st = (Ok tt, st')
    /\ intno (self st') = IdFalse
    /\ map (self st') = Bound None
    /\ thread (self st') = Bound None
    /\ file (self st') = Bound {| f_name := f_name fo; f_closed := true |}
    /\ (n ∉ w_live (world st'))
    /\ (f ∉ w_files (world st'))
    /\ (obj_id (self st) ∉ w_registry (world st'))
    /\ w_trace (world st') = w_trace (world st) ++ [EvDestroy (IdNum n); EvUnlink f].
Proof.
  intros Hi Hlive Hidle Hm Hfo Hf Hfile Hreg.
  destruct (close_idle_steps st n f m fo Hi Hlive Hidle Hm Hfo Hf Hfile)
    as (st1 & Hclose & Hself & Hl & Hfs & Hr & Ht).
  rewrite Hclose.
  unfold try_except, registry_remove, bind, get, modify_world, raise.
  rewrite Hself. simpl. rewrite Hr, (bool_decide_eq_true_2 _ Hreg).
  eexists. split; [reflexivity|]. simpl. rewrite Hself. simpl.
  split; [reflexivity|]. split; [reflexivity|]. split; [reflexivity|].
  split; [reflexivity|].
  split; [rewrite Hl; apply not_in_without|].
  split; [rewrite Hfs; apply not_in_without|].
  split; [apply not_in_without|exact Ht].
Qed.

(** X4: [close()] while the sub-interpreter is running raises the
    primitive's [RuntimeError] and gives nothing up: the object, the
    file, the context and the registry are as before, and the only thing
    recorded is the refused [destroy]. *)
Theorem close_running_worker (st : St Obj) (n : nat) :
  intno (self st) = IdNum n ->
  n ∈ w_live (world st) ->
  n ∈ w_running (world st) ->
  exists msg st',
    close st = (Raise (RuntimeError msg), st')
    /\ self st' = self st
    /\ w_live (world st') = w_live (world st)
    /\ w_files (world st') = w_files (world st)
    /\ w_registry (world st') = w_registry (world st)
    /\ (forall i, w_shm (world st') i = w_shm (world st) i)
    /\ w_trace (world st') = w_trace (world st) ++ [EvDestroy (IdNum n)].
Proof.
  intros Hi Hlive Hrun.
  unfold close, interpreters_destroy, log.
  unfold bind at 1. unfold get at 1. rewrite Hi.
  unfold bind at 1. unfold try_except at 1.
  unfold bind, get, modify_world, raise. simpl.
  rewrite (bool_decide_eq_true_2 _ Hlive), (bool_decide_eq_true_2 _ Hrun). simpl.
  eexists _, _. split; [reflexivity|]. simpl.
  split; [destruct (self st); reflexivity|]. repeat (split; [reflexivity|]).
  reflexivity.
Qed.

(** X5: [close()] on a worker that is no longer in [running_interpreters]
    (the set [list_all()] hands out is the module's own) does not pass
    over the [KeyError]: the handler names [keyError], so a [NameError]
    is raised.  By then the worker is closed all the same. *)
Theorem close_unregistered_raises_name_error (st : St Obj) (n f : nat) (m : Mmap)
    (fo : FileObj) :
  intno (self st) = IdNum n ->
  n ∈ w_live (world st) ->
  n ∉ w_running (world st) ->
  map (self st) = Bound (Some m) ->
  file (self st) = Bound fo ->
  fname (self st) = Bound f ->
  f ∈ w_files (world st) ->
  obj_id (self st) ∉ w_registry (world st) ->
  exists st',
    close st = (Raise (NameError "keyError"), st')
    /\ intno (self st') = IdFalse
    /\ map (self st') = Bound None
    /\ (n ∉ w_live (world st'))
    /\ (f ∉ w_files (world st')).
Proof.
  intros Hi Hlive Hidle Hm Hfo Hf Hfile Hreg.
  destruct (close_idle_steps st n f m fo Hi Hlive Hidle Hm Hfo Hf Hfile)
    as (st1 & Hclose & Hself & Hl & Hfs & Hr & Ht).
  rewrite Hclose.
  unfold try_except, registry_remove, bind, get, modify_world, raise.
  rewrite Hself. simpl. rewrite Hr, (bool_decide_eq_false_2 _ Hreg).
  eexists. split; [reflexivity|]. rewrite Hself. simpl.
  split; [reflexivity|]. split; [reflexivity|].
  split; [rewrite Hl; apply not_in_without|rewrite Hfs; apply not_in_without].
Qed.

(** X22: the finalizer releases a started worker, once.  On a started,
    idle, registered worker [__del__] does what [close()] does: the
    context is destroyed and the file unlinked; run again on the object
    it leaves, it does nothing. *)
Theorem finalizer_releases_once (st : St Obj) (n f : nat) (m : Mmap) (fo : FileObj) :
  intno (self st) = IdNum n ->
  n <> 0%nat ->
  n ∈ w_live (world st) ->
  n ∉ w_running (world st) ->
  map (self st) = Bound (Some m) ->
  file (self st) = Bound fo ->
  fname (self st) = Bound f ->
  f ∈ w_files (world st) ->
  obj_id (self st) ∈ w_registry (world st) ->
  exists st',
    __del__ st = (Ok tt, st')
    /\ (n ∉ w_live (world st'))
    /\ (f ∉ w_files (world st'))
    /\ w_trace (world st') = w_trace (world st) ++ [EvDestroy (IdNum n); EvUnlink f]
    /\ __del__ st' = (Ok tt, st').
Proof.
  intros Hi Hn Hlive Hidle Hm Hfo Hf Hfile Hreg.
  destruct (close_idle_steps st n f m fo Hi Hlive Hidle Hm Hfo Hf Hfile)
    as (st1 & Hclose & Hself & Hl & Hfs & Hr & Ht).
  assert (Hdel : __del__ st = close st).
  { unfold __del__. unfold bind at 1. unfold get at 1. rewrite Hi. simpl.
    destruct n; [contradiction|reflexivity]. }
  rewrite Hdel, Hclose.
  unfold try_except, registry_remove, bind, get, modify_world, raise.
  rewrite Hself. simpl. rewrite Hr, (bool_decide_eq_true_2 _ Hreg).
  eexists. split; [reflexivity|]. simpl.
  split; [rewrite Hl; apply not_in_without|].
  split; [rewrite Hfs; apply not_in_without|].
  split; [exact Ht|].
  unfold __del__, bind, get. simpl. rewrite Hself. reflexivity.
Qed.

(** X6: on a worker that [close()] has closed, every later use fails on
    [self.map] being [None], not on the "not initialized" test, which
    only knows [None]: [done()] and [execute] raise [TypeError] at the
    subscript, [result()] raises [AttributeError] at [seek]; nothing is
    sent and nothing changes. *)
Theorem use_after_close (func args : Obj) (kwargs : option Obj) (st st' : St Obj) :
  close st = (Ok tt, st') ->
  obj_module func <> Some "__main__" ->
  done st' = (Raise (TypeError "'NoneType' object is not subscriptable"), st')
  /\ result st' = (Raise (AttributeError "seek"), st')
  /\ execute func args kwargs st'
     = (Raise (TypeError "'NoneType' object is not subscriptable"), st').
Proof.
  intros Hc Hm. destruct (close_ok _ _ Hc) as [Hi Hmap].
  split; [|split].
  - unfold done, map_getitem, live_map, bind, getattr, raise. rewrite Hmap. reflexivity.
  - unfold result. simpl.
    unfold map_seek, live_map, bind, getattr, raise. rewrite Hmap. reflexivity.
  - unfold execute, execute_send. unfold bind at 1. unfold bind at 1. unfold get at 1.
    rewrite Hi. rewrite (bind_ok _ _ _ _ _ (resolve_main_importable func st' Hm)).
    unfold map_getitem, live_map, bind, getattr, raise. rewrite Hmap. reflexivity.
Qed.

(** X7: on an object that was constructed and never started, [run] and
    [execute] raise the "not initialized" [RuntimeError] whatever the
    callable, [done()] and [result()] raise [AttributeError] for the
    missing [map], and the finalizer does nothing. *)
Theorem use_before_start (func args kwargs : Obj) (st : St Obj) (me : nat) :
  self st = __init__ me ->
  run func args kwargs st = (Raise (RuntimeError not_started_msg), st)
  /\ execute func args (Some kwargs) st = (Raise (RuntimeError not_started_msg), st)
  /\ done st = (Raise (AttributeError "map"), st)
  /\ result st = (Raise (AttributeError "map"), st)
  /\ __del__ st = (Ok tt, st).
Proof.
  intros Hs.
  assert (Hsend : execute_send func args (Some kwargs) st
                  = (Raise (RuntimeError not_started_msg), st)).
  { unfold execute_send, bind, get. rewrite Hs. reflexivity. }
  split; [unfold run, execute; apply bind_raise, bind_raise, Hsend|].
  split; [unfold execute; apply bind_raise, Hsend|].
  split; [unfold done, map_getitem, live_map, bind, getattr; rewrite Hs; reflexivity|].
  split.
  - unfold result. simpl. unfold map_seek, live_map, bind, getattr. rewrite Hs.
    reflexivity.
  - unfold __del__, bind, get. rewrite Hs. reflexivity.
Qed.

(** X8: [list_all()] follows the lifecycle: a worker is in the set once
    [start()] has returned and out of it once [close()] has, and neither
    call adds or removes any other worker. *)
Theorem list_all_tracks_lifecycle (st st1 st2 : St Obj) :
  start st = (Ok tt, st1) ->
  close st1 = (Ok tt, st2) ->
  (exists r1, list_all st1 = (Ok r1, st1) /\ obj_id (self st) ∈ r1)
  /\ (exists r2, list_all st2 = (Ok r2, st2) /\ obj_id (self st) ∉ r2)
  /\ (forall other, other <> obj_id (self st) ->
        (other ∈ w_registry (world st) <-> other ∈ w_registry (world st1))
        /\ (other ∈ w_registry (world st1) <-> other ∈ w_registry (world st2))).
Proof.
  intros Hs Hc.
  destruct (start_ok_intno _ _ Hs) as (_ & _ & Hid & Hin).
  assert (Hstart : w_registry (world st1) = {[ obj_id (self st) ]} ∪ w_registry (world st)).
  { revert Hs.
    unfold start, _init_interpreter, interpreters_run_string, interpreters_create,
      tempfile_mktemp, open_zeroed, registry_add, log.
    unfold bind, get, getattr, modify_self, modify_world, ret, raise. simpl.
    intros Hr. repeat case_match; simplify_eq; reflexivity. }
  assert (Hclose : w_registry (world st2) = w_registry (world st1) ∖ {[ obj_id (self st) ]}).
  { revert Hc. unfold close. intros Hr.
    destruct (bind_inv _ _ _ _ _ Hr) as [(i & sa & Hq1 & Hq2)|(e & _ & He)]; [|discriminate].
    inversion Hq1; subst sa; clear Hq1.
    destruct (bind_inv _ _ _ _ _ Hq2) as [(u & sb & Hq3 & Hq4)|(e & _ & He)]; [|discriminate].
    destruct (bind_inv _ _ _ _ _ Hq4) as [([] & sc & Hq5 & Hq6)|(e & _ & He)]; [|discriminate].
    destruct (bind_inv _ _ _ _ _ Hq6) as [(u2 & sd & Hq7 & Hq8)|(e & _ & He)]; [|discriminate].
    assert (Hb : w_registry (world sb) = w_registry (world st1)
                 /\ obj_id (self sb) = obj_id (self st1)).
    { revert Hq3. unfold try_except, interpreters_destroy, log, bind, get,
        modify_world, raise. simpl.
      intros Hq3. repeat case_match; simplify_eq; split; reflexivity. }
    assert (Hcc : w_registry (world sc) = w_registry (world sb)
                  /\ obj_id (self sc) = obj_id (self sb)).
    { revert Hq5. unfold close_release, try_finally, map_close, file_close, os_unlink,
        log, bind, get, getattr, modify_self, modify_world, raise. simpl.
      intros Hq5. repeat case_match; simplify_eq; split; reflexivity. }
    unfold modify_self in Hq7. inversion Hq7; subst sd; clear Hq7.
    revert Hq8. unfold try_except, registry_remove, bind, get, modify_world, raise. simpl.
    destruct Hb as [Hb1 Hb2]. destruct Hcc as [Hc1 Hc2].
    rewrite Hc2, Hb2, Hid, Hc1, Hb1.
    destruct (bool_decide _); simpl; intros Hq8; inversion Hq8. reflexivity. }
  split; [|split].
  - eexists. split; [reflexivity|exact Hin].
  - eexists. split; [reflexivity|]. rewrite Hclose. apply not_in_without.
  - intros other Hne. rewrite Hclose, Hstart.
    rewrite elem_of_difference, elem_of_union, !elem_of_singleton. tauto.
Qed.

End LifecycleMore.


(** ** Dispatch: what crosses the channel *)

Section DispatchMore.
Context {Obj : Type} `{Python Obj}.

Lemma shm_view_ext (s1 s2 : Z -> byte) (pos : Z) :
  (forall i, pos <= i -> s1 i = s2 i) ->
  shm_view s1 pos = shm_view s2 pos.
Proof.
  intros Hs. unfold shm_view. apply map_ext. intros i. apply Hs. lia.
Qed.


(** What [result()] returns, in terms of the bytes of the return region. *)
Lemma result_fst (st : St Obj) (p : Z) :
  chan st p ->
  fst (result st)
  = match pickle_load (shm_view (w_shm (world st)) RET_OFFSET) with
    | None => Raise UnpicklingError
    | Some (o, _) =>
        match thread (self st) with
        | Unset => Raise (AttributeError "thread")
        | Bound _ => Ok o
        end
    end.
Proof.
  unfold chan. intros Hc. unfold result. simpl.
  unfold map_seek, pickle_load_map, live_map, bind, getattr, get, ret, raise,
    modify_self.
  rewrite Hc. simpl.
  destruct (pickle_load (shm_view (w_shm (world st)) RET_OFFSET)) as [[o k]|];
    [|reflexivity].
  simpl. destruct (thread (self st)) as [|[t|]]; reflexivity.
Qed.


(** X10: a returned [execute_send] wrote below [BFSZ - RET_OFFSET] only.
    The return region is byte for byte what it was, so until the worker
    runs, [result()] gives what it gave before the request was written:
    the previous call's value, if there was one. *)
Theorem send_preserves_return_region (func args : Obj) (kwargs : option Obj)
    (st st1 : St Obj) :
  execute_send func args kwargs st = (Ok tt, st1) ->
  (forall i, BFSZ - RET_OFFSET <= i -> w_shm (world st1) i = w_shm (world st) i)
  /\ fst (result st1) = fst (result st).
Proof.
  intros Hsend.
  destruct (execute_send_ok_inv _ _ _ _ _ Hsend) as (func' & b & st0 & p & Hi & Hres & Hc).
  pose proof (keeps_resolve_main func st _ _ Hres) as Hfr.
  destruct (execute_send_spec func args kwargs st func' b st0 p Hi Hres Hc)
    as (r & p' & shm' & st1' & Hsend' & Hb & Hsame & Hr).
  rewrite Hsend in Hsend'. inversion Hsend'; subst r st1'; clear Hsend'.
  destruct Hr as (Hst1 & _ & Hlim & _).
  destruct (sent_chan b p' shm' st0) as [Hc1 Hshm1]. rewrite <- Hst1 in Hc1, Hshm1.
  assert (Hkeep : forall i, BFSZ - RET_OFFSET <= i -> w_shm (world st1) i = w_shm (world st) i).
  { intros i Hge. rewrite Hshm1, (Hsame i) by lia. rewrite (frame_shm _ _ Hfr).
    reflexivity. }
  split; [exact Hkeep|].
  assert (Hcst : chan st p).
  { unfold chan in *. rewrite (frame_self _ _ Hfr) in Hc. exact Hc. }
  assert (Hth : thread (self st1) = thread (self st)).
  { rewrite Hst1. unfold sent. destruct b; simpl; rewrite (frame_self _ _ Hfr);
      reflexivity. }
  rewrite (result_fst st1 p' Hc1), (result_fst st p Hcst), Hth.
  rewrite (shm_view_ext (w_shm (world st1)) (w_shm (world st)) RET_OFFSET);
    [reflexivity|].
  intros i Hge. apply Hkeep. unfold BFSZ, RET_OFFSET in *. lia.
Qed.

(** X11: [result()] may be called again: it seeks back to [RET_OFFSET]
    each time, so a call that returned a value returns the same value
    from the state it left, and leaves that state as it is. *)
Theorem result_repeatable (st st1 : St Obj) (v : Obj) :
  result st = (Ok v, st1) ->
  result st1 = (Ok v, st1).
Proof.
  unfold result. simpl.
  unfold map_seek, pickle_load_map, live_map, bind, getattr, get, ret, raise,
    modify_self.
  destruct (map (self st)) as [|[[p c]|]] eqn:Hm; try discriminate.
  destruct c; try discriminate. simpl.
  destruct (pickle_load (shm_view (w_shm (world st)) RET_OFFSET)) as [[o k]|] eqn:Hl;
    [|discriminate].
  simpl. destruct (thread (self st)) as [|[t|]] eqn:Ht; try discriminate;
    intros Hr; inversion Hr; subst; simpl; rewrite Hl; simpl; rewrite ?Ht;
    reflexivity.
Qed.

(** A sendable request on a ready worker is written and read back. *)
Lemma send_ready (func args : Obj) (kwargs : option Obj) (st : St Obj) (n : nat) :
  ready n st ->
  sendable func args (kwargs_or_empty kwargs) ->
  exists p' shm',
    execute_send func args kwargs st = (Ok tt, at_cursor p' shm' st)
    /\ _thaw shm' 0 = Ok (func, args, kwargs_or_empty kwargs).
Proof.
  intros (Hi & _ & _ & _ & (p & Hc) & _) (Hm & Hf & Ha & Hk & Hsize).
  destruct (execute_send_spec func args kwargs st func false st p
              ltac:(rewrite Hi; discriminate)
              (resolve_main_importable func st Hm) Hc)
    as (r & p' & shm' & st1 & Hsend & _ & _ & Hr).
  destruct r as [[]|e].
  2:{ destruct Hr as (_ & [(_ & Hlim)|(_ & Hnot)]); [lia|].
      exfalso. apply Hnot. repeat constructor; assumption. }
  destruct Hr as (Hst1 & _ & _ & Hshm' & _).
  unfold sent in Hst1. simpl in Hst1. subst st1.
  exists p', shm'. split; [exact Hsend|].
  apply (thaw_stream shm' (w_shm (world st))); try assumption.
  unfold BFSZ, RET_OFFSET in *. lia.
Qed.

(** The trigger on a ready worker, by what [_call] does. *)
Lemma trigger_outcome (st1 : St Obj) (n : nat) (p' : Z) :
  intno (self st1) = IdNum n ->
  n ∈ w_live (world st1) ->
  n ∉ w_running (world st1) ->
  n ∈ w_ready (world st1) ->
  chan st1 p' ->
  match _call (w_shm (world st1)) 0 with
  | (Ok _, shm2) =>
      exists st2,
        execute_trigger st1 = (Ok tt, st2)
        /\ self st2 = self st1
        /\ w_shm (world st2) = shm2
        /\ w_live (world st2) = w_live (world st1)
        /\ w_running (world st2) = w_running (world st1)
        /\ w_ready (world st2) = w_ready (world st1)
        /\ w_trace (world st2) = w_trace (world st1) ++ [EvRun (IdNum n) (CodeCall 0)]
  | (Raise e, shm2) =>
      exists st3,
        execute_trigger st1 = (Raise (RunFailedError (exn_name e)), st3)
        /\ w_shm (world st3) RET_OFFSET = x01
        /\ exception (self st3) = Bound (RunFailedError (exn_name e))
        /\ chan st3 p'
        /\ w_trace (world st3)
           = w_trace (world st1) ++ [EvRun (IdNum n) (CodeCall 0); EvStderr]
  end.
Proof.
  intros Hi Hlive Hidle Hready Hc.
  unfold execute_trigger, try_except, interpreters_run_string, map_setitem, live_map,
    log.
  unfold bind, get, getattr, modify_world, modify_self, raise, ret. simpl.
  rewrite Hi. simpl.
  rewrite (bool_decide_eq_true_2 _ Hlive), (bool_decide_eq_false_2 _ Hidle),
    (bool_decide_eq_true_2 _ Hready).
  simpl.
  destruct (_call (w_shm (world st1)) 0) as [[[]|e] shm2].
  - eexists. split; [reflexivity|]. simpl.
    split; [destruct (self st1); reflexivity|]. repeat (split; [reflexivity|]).
    reflexivity.
  - unfold chan in Hc. simpl. rewrite Hc. simpl.
    eexists. split; [reflexivity|]. simpl.
    split; [reflexivity|]. split; [reflexivity|]. split; [exact Hc|].
    rewrite <- app_assoc. reflexivity.
Qed.

(** What a [result()] that finds a pickle leaves behind. *)
Lemma result_ok_state (st : St Obj) (p : Z) (t : option nat) (v : Obj) (k : nat) :
  chan st p ->
  thread (self st) = Bound t ->
  pickle_load (shm_view (w_shm (world st)) RET_OFFSET) = Some (v, k) ->
  exists st',
    result st = (Ok v, st')
    /\ world st' = world st
    /\ intno (self st') = intno (self st)
    /\ chan st' (RET_OFFSET + Z.of_nat k)
    /\ thread (self st') = Bound None.
Proof.
  unfold chan. intros Hc Ht Hl. unfold result. simpl.
  unfold map_seek, pickle_load_map, live_map, bind, getattr, get, ret, raise,
    modify_self.
  rewrite Hc. simpl. rewrite Hl. simpl. rewrite Ht.
  destruct t; eexists; (split; [reflexivity|]); simpl;
    repeat (split; [reflexivity|]); try reflexivity.
  exact Ht.
Qed.

(** A call that fits, on a ready worker: [run] returns the callable's
    value and the worker is ready again. *)
Lemma run_ready (func args kwargs v : Obj) (st : St Obj) (n : nat) :
  ready n st ->
  sendable func args (kwargs_or_empty (Some kwargs)) ->
  call func args (kwargs_or_empty (Some kwargs)) = Ok v ->
  returnable v ->
  exists st',
    run func args kwargs st = (Ok v, st')
    /\ ready n st'
    /\ w_trace (world st') = w_trace (world st) ++ [EvRun (IdNum n) (CodeCall 0)]
    /\ (forall cv i, pickle_dump v = Some cv -> (i < length (concat cv))%nat ->
          w_shm (world st') (RET_OFFSET + Z.of_nat i) = nth i (concat cv) x00).
Proof.
  intros Hready Hsendable Hcall (cv & Hd & Hfit).
  destruct (send_ready func args (Some kwargs) st n Hready Hsendable)
    as (p' & shm' & Hsend & Hthaw).
  destruct Hready as (Hi & Hlive & Hidle & Hrdy & _ & (t & Ht)).
  destruct (call_stream shm' _ _ _ v cv Hthaw Hcall Hd Hfit) as (shm2 & Hc2 & Hshm2).
  pose proof (trigger_outcome (at_cursor p' shm' st) n p' Hi Hlive Hidle Hrdy eq_refl)
    as Htrig.
  cbn [world at_cursor w_shm set_shm] in Htrig. rewrite Hc2 in Htrig.
  destruct Htrig as (st2 & Htrig & Hself & Hshm & Hl2 & Hr2 & Hrd2 & Ht2).
  assert (Hload : pickle_load (shm_view (w_shm (world st2)) RET_OFFSET)
                  = Some (v, length (concat cv))).
  { rewrite Hshm. rewrite (shm_view_prefix shm2 RET_OFFSET (concat cv)).
    - apply pickle_load_dump, Hd.
    - exact Hfit.
    - intros i Hlt. rewrite Hshm2. apply shm_store_inside. exact Hlt. }
  assert (Hc2' : chan st2 p') by (unfold chan; rewrite Hself; reflexivity).
  assert (Ht2' : thread (self st2) = Bound t) by (rewrite Hself; exact Ht).
  destruct (result_ok_state st2 p' t v _ Hc2' Ht2' Hload)
    as (st3 & Hres & Hw3 & Hi3 & Hc3 & Hth3).
  exists st3. split.
  - assert (Hexec : execute func args (Some kwargs) st = (Ok tt, st2)).
    { unfold execute. rewrite (bind_ok _ _ _ _ _ Hsend). exact Htrig. }
    unfold run. rewrite (bind_ok _ _ _ _ _ Hexec). exact Hres.
  - split.
    + unfold ready. rewrite Hi3, Hself, Hw3, Hl2, Hr2, Hrd2.
      split; [exact Hi|]. split; [exact Hlive|]. split; [exact Hidle|].
      split; [exact Hrdy|]. split; [eexists; exact Hc3|eexists; exact Hth3].
    + split; [rewrite Hw3; exact Ht2|].
      intros cv' i Hd' Hlt. rewrite Hd in Hd'. inversion Hd'; subst cv'.
      rewrite Hw3, Hshm, Hshm2. apply shm_store_inside. exact Hlt.
Qed.






(** X16: nothing writes a completion flag after a call that succeeded:
    the byte [done()] reads is the first byte of the return region, where
    the worker's [dump] has put the first byte of the result's pickle.
    After [run] has returned, [done()] is true exactly when that byte is
    not zero. *)
Theorem done_after_run_reads_result_byte (func args kwargs v : Obj) (st : St Obj)
    (n : nat) (cv : list (list byte)) :
  ready n st ->
  sendable func args (kwargs_or_empty (Some kwargs)) ->
  call func args (kwargs_or_empty (Some kwargs)) = Ok v ->
  pickle_dump v = Some cv ->
  (0 < length (concat cv))%nat ->
  RET_OFFSET + Z.of_nat (length (concat cv)) <= BFSZ ->
  exists st',
    run func args kwargs st = (Ok v, st')
    /\ done st' = (Ok (negb (Byte.eqb (nth 0 (concat cv) x00) x00)), st').
Proof.
  intros Hready Hs Hc Hd Hne Hfit.
  destruct (run_ready func args kwargs v st n Hready Hs Hc
              (ex_intro _ cv (conj Hd Hfit)))
    as (st' & Hrun & Hready' & _ & Hbytes).
  exists st'. split; [exact Hrun|].
  destruct Hready' as (_ & _ & _ & _ & (p & Hp) & _).
  rewrite (done_live st' p Hp).
  specialize (Hbytes cv 0%nat Hd Hne).
  replace (RET_OFFSET + Z.of_nat 0) with RET_OFFSET in Hbytes by lia.
  rewrite Hbytes. reflexivity.
Qed.

(** A sendable request on a worker whose map is open is written below
    [BFSZ - RET_OFFSET] and read back. *)
Lemma send_open (func args : Obj) (kwargs : option Obj) (st : St Obj) (p : Z) :
  intno (self st) <> IdNone ->
  chan st p ->
  sendable func args (kwargs_or_empty kwargs) ->
  exists p' shm',
    execute_send func args kwargs st = (Ok tt, at_cursor p' shm' st)
    /\ _thaw shm' 0 = Ok (func, args, kwargs_or_empty kwargs)
    /\ p' < BFSZ - RET_OFFSET
    /\ (forall i, p' <= i -> shm' i = w_shm (world st) i).
Proof.
  intros Hi Hc (Hm & Hf & Ha & Hk & Hsize).
  destruct (execute_send_spec func args kwargs st func false st p Hi
              (resolve_main_importable func st Hm) Hc)
    as (r & p' & shm' & st1 & Hsend & _ & Hsame & Hr).
  destruct r as [[]|e].
  2:{ destruct Hr as (_ & [(_ & Hlim)|(_ & Hnot)]); [lia|].
      exfalso. apply Hnot. repeat constructor; assumption. }
  destruct Hr as (Hst1 & _ & Hlim & Hshm' & _).
  unfold sent in Hst1. simpl in Hst1. subst st1.
  exists p', shm'. split; [exact Hsend|].
  split; [|split; [exact Hlim|exact Hsame]].
  apply (thaw_stream shm' (w_shm (world st))); try assumption.
  unfold BFSZ, RET_OFFSET in *. lia.
Qed.

(** X17: [execute] on a worker whose sub-interpreter is still running (a
    call started with [run_in_thread] has not finished).  The request is
    written over the payload region all the same; then the primitive
    refuses the trigger with a [RuntimeError], which is not a
    [RunFailedError]: it reaches the caller as it is, the flag byte is
    not set and [self.exception] is not assigned. *)
Theorem execute_on_running_worker (func args : Obj) (kwargs : option Obj)
    (st : St Obj) (n : nat) (p : Z) :
  intno (self st) = IdNum n ->
  n ∈ w_live (world st) ->
  n ∈ w_running (world st) ->
  chan st p ->
  sendable func args (kwargs_or_empty kwargs) ->
  exists st',
    execute func args kwargs st
    = (Raise (RuntimeError "interpreter already running"), st')
    /\ _thaw (w_shm (world st')) 0 = Ok (func, args, kwargs_or_empty kwargs)
    /\ w_shm (world st') RET_OFFSET = w_shm (world st) RET_OFFSET
    /\ exception (self st') = exception (self st)
    /\ w_trace (world st') = w_trace (world st) ++ [EvRun (IdNum n) (CodeCall 0)].
Proof.
  intros Hi Hlive Hrun Hc Hs.
  destruct (send_open func args kwargs st p ltac:(rewrite Hi; discriminate) Hc Hs)
    as (p' & shm' & Hsend & Hthaw & Hlim & Hsame).
  assert (Htrig : exists st',
             execute_trigger (at_cursor p' shm' st)
             = (Raise (RuntimeError "interpreter already running"), st')
             /\ self st' = self (at_cursor p' shm' st)
             /\ w_shm (world st') = shm'
             /\ w_trace (world st') = w_trace (world st) ++ [EvRun (IdNum n) (CodeCall 0)]).
  { unfold execute_trigger, try_except, interpreters_run_string, log.
    unfold bind, get, modify_world, raise. simpl. rewrite Hi. simpl.
    rewrite (bool_decide_eq_true_2 _ Hlive), (bool_decide_eq_true_2 _ Hrun). simpl.
    eexists. split; [reflexivity|]. simpl.
    split; [reflexivity|]. split; reflexivity. }
  destruct Htrig as (st' & Htrig & Hself & Hshm & Ht).
  exists st'. split.
  - unfold execute. rewrite (bind_ok _ _ _ _ _ Hsend). exact Htrig.
  - rewrite Hshm, Hself. split; [exact Hthaw|].
    split; [apply Hsame; unfold BFSZ, RET_OFFSET in *; lia|].
    split; [reflexivity|exact Ht].
Qed.

(** X18: a callable of [__main__] in a process started from a script is
    not pickled itself: [execute] looks its name up in the module
    imported from the script's file and writes that function.  No source
    or import is sent to the worker, and once the three pickles are
    written the module is renamed. *)
Theorem script_callable_is_reimported (func func' args : Obj) (kwargs : option Obj)
    (st : St Obj) (p : Z) (path : string) :
  intno (self st) <> IdNone ->
  chan st p ->
  obj_module func = Some "__main__" ->
  w_main_file (world st) = Some path ->
  str_truthy path = true ->
  w_reimport (world st) path (obj_name func) = Ok func' ->
  picklable func' -> picklable args -> picklable (kwargs_or_empty kwargs) ->
  Z.of_nat (length (stream [func'; args; kwargs_or_empty kwargs])) < BFSZ - RET_OFFSET ->
  exists st',
    execute_send func args kwargs st = (Ok tt, st')
    /\ _thaw (w_shm (world st')) 0 = Ok (func', args, kwargs_or_empty kwargs)
    /\ source_handled (self st') = source_handled (self st)
    /\ w_trace (world st') = w_trace (world st) ++ [EvRenameMain].
Proof.
  intros Hi Hc Hm Hfile Hpath Hre Hf Ha Hk Hsize.
  assert (Hres : resolve_main func st = (Ok (func', true), st)).
  { unfold resolve_main. rewrite (bool_decide_eq_true_2 _ Hm).
    unfold bind, get. rewrite Hfile, Hpath. simpl. rewrite Hre. reflexivity. }
  destruct (execute_send_spec func args kwargs st func' true st p Hi Hres Hc)
    as (r & p' & shm' & st1 & Hsend & _ & _ & Hr).
  destruct r as [[]|e].
  2:{ destruct Hr as (_ & [(_ & Hlim)|(_ & Hnot)]); [lia|].
      exfalso. apply Hnot. repeat constructor; assumption. }
  destruct Hr as (Hst1 & _ & _ & Hshm' & _).
  exists st1. split; [exact Hsend|]. subst st1. unfold sent, log, modify_world. simpl.
  split; [|split; reflexivity].
  apply (thaw_stream shm' (w_shm (world st))); try assumption.
  unfold BFSZ, RET_OFFSET in *. lia.
Qed.

End DispatchMore.


(** ** Replication: what reaches the worker before a call *)

Section ReplicationMore.
Context {Obj : Type} `{Python Obj}.

(** X19: [_handle_module] imports a module once.  On an idle worker that
    accepts the import, a module not yet in [_source_handled] is imported
    and recorded as "module"; called again with the same name,
    [_handle_module] sends nothing and changes nothing. *)
Theorem handle_module_imports_once (m : string) (st : St Obj) (n : nat)
    (cache : gmap string CacheVal) :
  source_handled (self st) = Bound cache ->
  str_truthy m = true ->
  m ∉ dom cache ->
  intno (self st) = IdNum n ->
  n ∈ w_live (world st) ->
  n ∉ w_running (world st) ->
  w_remote_exec (world st) (CodeImport m) = None ->
  exists st',
    _handle_module (Some m) st = (Ok tt, st')
    /\ source_handled (self st') = Bound (<[ m := CModule ]> cache)
    /\ w_trace (world st') = w_trace (world st) ++ [EvRun (IdNum n) (CodeImport m)]
    /\ _handle_module (Some m) st' = (Ok tt, st').
Proof.
  intros Hsh Hm Hnew Hi Hlive Hidle Hok.
  pose proof (run_string_live (CodeImport m) st n I Hi Hlive Hidle) as Hrun.
  rewrite Hok in Hrun.
  exists (Build_St (set_source_handled (Bound (<[ m := CModule ]> cache)) (self st))
                   (world (logged (IdNum n) (CodeImport m) st))).
  split; [|split; [reflexivity|split; [reflexivity|]]].
  - unfold _handle_module. rewrite Hm. simpl.
    unfold bind at 1. unfold getattr at 1. rewrite Hsh.
    rewrite (bool_decide_eq_false_2 _ Hnew).
    unfold try_except. rewrite (bind_ok _ _ _ _ _ Hrun).
    unfold bind, getattr, modify_self, logged. simpl. rewrite Hsh. reflexivity.
  - unfold _handle_module. rewrite Hm. simpl.
    unfold bind, getattr. simpl.
    rewrite bool_decide_eq_true_2; [reflexivity|].
    rewrite dom_insert. apply elem_of_union_l, elem_of_singleton. reflexivity.
Qed.

(** X20: when the worker rejects the source of a function typed at the
    prompt, the call is over before it began.  [execute] raises the
    [RunFailedError] of [run_string] out of [_prepare_interactive]:
    nothing is written to the map, the trigger is not sent, and the
    handler of lines 246-250 is not involved, so the flag byte and
    [self.exception] are as they were.  The name is not recorded. *)
Theorem rejected_source_cancels_call (func args : Obj) (kwargs : option Obj)
    (st : St Obj) (n : nat) (source msg : string) :
  intno (self st) = IdNum n ->
  n ∈ w_live (world st) ->
  n ∉ w_running (world st) ->
  obj_module func = Some "__main__" ->
  w_main_file (world st) = None ->
  source_handled (self st) = Unset ->
  getsource func = Ok source ->
  w_remote_exec (world st) (CodeSource source) = Some msg ->
  exists st',
    execute func args kwargs st = (Raise (RunFailedError msg), st')
    /\ source_handled (self st') = Bound ∅
    /\ map (self st') = map (self st)
    /\ exception (self st') = exception (self st)
    /\ (forall i, w_shm (world st') i = w_shm (world st) i)
    /\ w_trace (world st') = w_trace (world st) ++ [EvRun (IdNum n) (CodeSource source)].
Proof.
  intros Hi Hlive Hidle Hm Hfile Hsh Hsrc Hfail.
  set (st0 := Build_St (set_source_handled (Bound ∅) (self st)) (world st)).
  pose proof (run_string_live (CodeSource source) st0 n I Hi Hlive Hidle) as Hrun.
  change (w_remote_exec (world st0)) with (w_remote_exec (world st)) in Hrun.
  rewrite Hfail in Hrun.
  assert (Hship : _source_handle func st0
                  = (Raise (RunFailedError msg), logged (IdNum n) (CodeSource source) st0)).
  { unfold _source_handle. unfold bind at 1. unfold getattr at 1.
    cbn [st0 self source_handled set_source_handled].
    rewrite lookup_empty, Hsrc. apply bind_raise. exact Hrun. }
  assert (Hprep : _prepare_interactive func st
                  = (Raise (RunFailedError msg), logged (IdNum n) (CodeSource source) st0)).
  { unfold _prepare_interactive. rewrite (bool_decide_eq_true_2 _ Hm). cbn [negb].
    unfold bind at 1. unfold get at 1. rewrite Hsh.
    unfold bind at 1. unfold modify_self at 1.
    change (Build_St (set_source_handled (Bound ∅) (self st)) (world st)) with st0.
    apply bind_raise. exact Hship. }
  exists (logged (IdNum n) (CodeSource source) st0).
  split; [|repeat (split; [reflexivity|]); reflexivity].
  unfold execute. apply bind_raise.
  unfold execute_send. unfold bind at 1. unfold get at 1. rewrite Hi.
  apply bind_raise.
  unfold resolve_main. rewrite (bool_decide_eq_true_2 _ Hm).
  unfold bind at 1. unfold get at 1. rewrite Hfile.
  apply bind_raise. exact Hprep.
Qed.

(** X21: the footprint of [_prepare_interactive], whatever the session
    holds and however the run ends.  Of the object only [_source_handled]
    changes, and no name recorded there is ever dropped; the map, its
    cursor and its bytes, the worker's id, the files and the registry are
    untouched, and what is sent is replication code only: never the
    trigger. *)
Theorem replication_footprint (func : Obj) (st : St Obj) :
  let st' := snd (_prepare_interactive func st) in
  intno (self st') = intno (self st)
  /\ map (self st') = map (self st)
  /\ thread (self st') = thread (self st)
  /\ exception (self st') = exception (self st)
  /\ (forall i, w_shm (world st') i = w_shm (world st) i)
  /\ w_live (world st') = w_live (world st)
  /\ w_files (world st') = w_files (world st)
  /\ w_registry (world st') = w_registry (world st)
  /\ (forall name, handled name st -> handled name st')
  /\ (exists evs, w_trace (world st') = w_trace (world st) ++ evs
                  /\ forall i ind_data, ~ In (EvRun i (CodeCall ind_data)) evs).
Proof.
  destruct (_prepare_interactive func st) as [r st'] eqn:Hr. simpl.
  pose proof (keeps_prepare_interactive func st r st' Hr) as Hfr.
  destruct Hfr as [Hself Hworld (evs & Ht & Hall) Hcache].
  rewrite Hself, Hworld. simpl.
  repeat (split; [reflexivity|]).
  split.
  - intros name (cache & Hb & Hin). unfold handled. simpl.
    unfold cache_le in Hcache. rewrite Hb in Hcache.
    destruct Hcache as (cb & Hcb & Hsub).
    exists cb. split; [exact Hcb|]. apply Hsub, Hin.
  - exists evs. split; [exact Ht|].
    intros i ind_data Hin. rewrite Forall_forall in Hall.
    apply (Hall _ (proj2 (list_elem_of_In _ _) Hin)).
Qed.

End ReplicationMore.


(** ** The further properties at work on the small universe *)

Lemma ready_started : ready 1 Scenario.started.
Proof.
  unfold ready. split; [reflexivity|]. split; [set_solver|]. split; [set_solver|].
  split; [set_solver|]. split; [exists 0; reflexivity|exists None; reflexivity].
Qed.

Lemma sendable_len : sendable (Toy.TFunc Toy.FnLen) (Toy.TTuple [x01; x02; x03]) Toy.TDict.
Proof.
  unfold sendable, picklable. split; [discriminate|]. split; [discriminate|].
  split; [discriminate|]. split; [discriminate|]. vm_compute. reflexivity.
Qed.


Lemma start_twice_raises_witness :
  start Scenario.started
  = (Raise (RuntimeError "Interpreter already started"), Scenario.started).
Proof.
  apply (start_twice_raises Scenario.fresh Scenario.started).
  exact ScenarioChecks.start_fresh.
Defined.

Lemma close_idle_worker_witness :
  exists st',
    close Scenario.started = (Ok tt, st')
    /\ intno (self st') = IdFalse
    /\ map (self st') = Bound None
    /\ (1%nat ∉ w_live (world st'))
    /\ (0%nat ∉ w_files (world st'))
    /\ (7%nat ∉ w_registry (world st'))
    /\ w_trace (world st')
       = w_trace (world Scenario.started) ++ [EvDestroy (IdNum 1); EvUnlink 0].
Proof.
  assert (Hlive : 1%nat ∈ w_live (world Scenario.started)) by set_solver.
  assert (Hidle : 1%nat ∉ w_running (world Scenario.started)) by set_solver.
  assert (Hfile : 0%nat ∈ w_files (world Scenario.started)) by set_solver.
  assert (Hreg : obj_id (self Scenario.started) ∈ w_registry (world Scenario.started))
    by set_solver.
  destruct (close_idle_worker Scenario.started 1 0 {| mm_pos := 0; mm_closed := false |}
              {| f_name := 0; f_closed := false |}
              eq_refl Hlive Hidle eq_refl eq_refl eq_refl Hfile Hreg)
    as (st' & Hc & Hi & Hm & _ & _ & Hl & Hf & Hr & Ht).
  exists st'. repeat (split; [assumption|]). exact Ht.
Defined.

Lemma close_running_worker_witness :
  exists msg st',
    close Scenario.busy = (Raise (RuntimeError msg), st')
    /\ self st' = self Scenario.busy
    /\ w_live (world st') = w_live (world Scenario.busy)
    /\ w_files (world st') = w_files (world Scenario.busy)
    /\ w_registry (world st') = w_registry (world Scenario.busy)
    /\ (forall i, w_shm (world st') i = w_shm (world Scenario.busy) i)
    /\ w_trace (world st') = w_trace (world Scenario.busy) ++ [EvDestroy (IdNum 1)].
Proof.
  assert (Hlive : 1%nat ∈ w_live (world Scenario.busy)) by set_solver.
  assert (Hrun : 1%nat ∈ w_running (world Scenario.busy)) by set_solver.
  exact (close_running_worker Scenario.busy 1 eq_refl Hlive Hrun).
Defined.

Lemma close_unregistered_raises_name_error_witness :
  exists st',
    close Scenario.unlisted = (Raise (NameError "keyError"), st')
    /\ intno (self st') = IdFalse
    /\ map (self st') = Bound None
    /\ (1%nat ∉ w_live (world st'))
    /\ (0%nat ∉ w_files (world st')).
Proof.
  assert (Hlive : 1%nat ∈ w_live (world Scenario.unlisted)) by set_solver.
  assert (Hidle : 1%nat ∉ w_running (world Scenario.unlisted)) by set_solver.
  assert (Hfile : 0%nat ∈ w_files (world Scenario.unlisted)) by set_solver.
  assert (Hreg : obj_id (self Scenario.unlisted) ∉ w_registry (world Scenario.unlisted))
    by set_solver.
  exact (close_unregistered_raises_name_error Scenario.unlisted 1 0
           {| mm_pos := 0; mm_closed := false |} {| f_name := 0; f_closed := false |}
           eq_refl Hlive Hidle eq_refl eq_refl eq_refl Hfile Hreg).
Defined.

Lemma finalizer_releases_once_witness :
  exists st',
    __del__ Scenario.started = (Ok tt, st')
    /\ (1%nat ∉ w_live (world st'))
    /\ (0%nat ∉ w_files (world st'))
    /\ w_trace (world st')
       = w_trace (world Scenario.started) ++ [EvDestroy (IdNum 1); EvUnlink 0]
    /\ __del__ st' = (Ok tt, st').
Proof.
  assert (Hn : 1%nat <> 0%nat) by discriminate.
  assert (Hlive : 1%nat ∈ w_live (world Scenario.started)) by set_solver.
  assert (Hidle : 1%nat ∉ w_running (world Scenario.started)) by set_solver.
  assert (Hfile : 0%nat ∈ w_files (world Scenario.started)) by set_solver.
  assert (Hreg : obj_id (self Scenario.started) ∈ w_registry (world Scenario.started))
    by set_solver.
  exact (finalizer_releases_once Scenario.started 1 0
           {| mm_pos := 0; mm_closed := false |} {| f_name := 0; f_closed := false |}
           eq_refl Hn Hlive Hidle eq_refl eq_refl eq_refl Hfile Hreg).
Defined.

Lemma use_after_close_witness :
  done Scenario.closed
  = (Raise (TypeError "'NoneType' object is not subscriptable"), Scenario.closed)
  /\ result Scenario.closed = (Raise (AttributeError "seek"), Scenario.closed)
  /\ execute (Toy.TFunc Toy.FnLen) (Toy.TTuple [x01; x02; x03]) None Scenario.closed
     = (Raise (TypeError "'NoneType' object is not subscriptable"), Scenario.closed).
Proof.
  apply (use_after_close (Toy.TFunc Toy.FnLen) (Toy.TTuple [x01; x02; x03]) None
           Scenario.started Scenario.closed).
  - exact ScenarioChecks.close_started.
  - discriminate.
Defined.

Lemma use_before_start_witness :
  run (Toy.TFunc Toy.FnLen) (Toy.TTuple [x01; x02; x03]) Toy.TDict Scenario.fresh
  = (Raise (RuntimeError not_started_msg), Scenario.fresh)
  /\ execute (Toy.TFunc Toy.FnLen) (Toy.TTuple [x01; x02; x03]) (Some Toy.TDict)
             Scenario.fresh
     = (Raise (RuntimeError not_started_msg), Scenario.fresh)
  /\ done Scenario.fresh = (Raise (AttributeError "map"), Scenario.fresh)
  /\ result Scenario.fresh = (Raise (AttributeError "map"), Scenario.fresh)
  /\ __del__ Scenario.fresh = (Ok tt, Scenario.fresh).
Proof.
  apply (use_before_start (Toy.TFunc Toy.FnLen) (Toy.TTuple [x01; x02; x03]) Toy.TDict
           Scenario.fresh 7).
  reflexivity.
Defined.

Lemma list_all_tracks_lifecycle_witness :
  (exists r1, list_all Scenario.started = (Ok r1, Scenario.started) /\ 7%nat ∈ r1)
  /\ (exists r2, list_all Scenario.closed = (Ok r2, Scenario.closed) /\ 7%nat ∉ r2).
Proof.
  destruct (list_all_tracks_lifecycle Scenario.fresh Scenario.started Scenario.closed
              ScenarioChecks.start_fresh ScenarioChecks.close_started)
    as (H1 & H2 & _).
  split; [exact H1|exact H2].
Defined.


Lemma send_preserves_return_region_witness :
  (forall i, BFSZ - RET_OFFSET <= i ->
             w_shm (world Scenario.resent) i = w_shm (world Scenario.after_run) i)
  /\ fst (result Scenario.resent) = fst (result Scenario.after_run).
Proof.
  apply (send_preserves_return_region (Toy.TFunc Toy.FnFail) (Toy.TTuple [x01]) None
           Scenario.after_run Scenario.resent).
  exact ScenarioChecks.send_again.
Defined.

Lemma result_repeatable_witness :
  result (snd (result Scenario.after_run))
  = (Ok (Toy.TInt x03), snd (result Scenario.after_run)).
Proof.
  assert (Hf : fst (result Scenario.after_run) = Ok (Toy.TInt x03)) by reflexivity.
  assert (Hr : result Scenario.after_run
               = (Ok (Toy.TInt x03), snd (result Scenario.after_run))).
  { rewrite <- Hf. apply surjective_pairing. }
  exact (result_repeatable Scenario.after_run (snd (result Scenario.after_run))
           (Toy.TInt x03) Hr).
Defined.





Lemma done_after_run_reads_result_byte_witness :
  exists st',
    run (Toy.TFunc Toy.FnLen) (Toy.TTuple [x01; x02; x03]) Toy.TDict Scenario.started
    = (Ok (Toy.TInt x03), st')
    /\ done st' = (Ok true, st').
Proof.
  assert (Hne : (0 < length (concat [[Toy.BININT1; x03; Toy.STOP]]))%nat)
    by (simpl; lia).
  assert (Hfit : RET_OFFSET + Z.of_nat (length (concat [[Toy.BININT1; x03; Toy.STOP]]))
                 <= BFSZ)
    by (unfold RET_OFFSET, BFSZ; simpl; lia).
  exact (done_after_run_reads_result_byte (Toy.TFunc Toy.FnLen)
           (Toy.TTuple [x01; x02; x03]) Toy.TDict (Toy.TInt x03) Scenario.started 1
           [[Toy.BININT1; x03; Toy.STOP]]
           ready_started sendable_len eq_refl eq_refl Hne Hfit).
Defined.

Lemma execute_on_running_worker_witness :
  exists st',
    execute (Toy.TFunc Toy.FnLen) (Toy.TTuple [x01; x02; x03]) None Scenario.busy
    = (Raise (RuntimeError "interpreter already running"), st')
    /\ _thaw (w_shm (world st')) 0
       = Ok (Toy.TFunc Toy.FnLen, Toy.TTuple [x01; x02; x03], Toy.TDict)
    /\ w_shm (world st') RET_OFFSET = w_shm (world Scenario.busy) RET_OFFSET
    /\ exception (self st') = exception (self Scenario.busy)
    /\ w_trace (world st')
       = w_trace (world Scenario.busy) ++ [EvRun (IdNum 1) (CodeCall 0)].
Proof.
  assert (Hlive : 1%nat ∈ w_live (world Scenario.busy)) by set_solver.
  assert (Hrun : 1%nat ∈ w_running (world Scenario.busy)) by set_solver.
  exact (execute_on_running_worker (Toy.TFunc Toy.FnLen) (Toy.TTuple [x01; x02; x03])
           None Scenario.busy 1 0 eq_refl Hlive Hrun eq_refl sendable_len).
Defined.

Lemma script_callable_is_reimported_witness :
  exists st',
    execute_send (Toy.TFunc (Toy.FnMain "f" 11)) (Toy.TTuple [x01; x02; x03]) None
                 Scenario.scripted
    = (Ok tt, st')
    /\ _thaw (w_shm (world st')) 0
       = Ok (Toy.TFunc Toy.FnLen, Toy.TTuple [x01; x02; x03], Toy.TDict)
    /\ source_handled (self st') = source_handled (self Scenario.scripted)
    /\ w_trace (world st') = w_trace (world Scenario.scripted) ++ [EvRenameMain].
Proof.
  assert (Hi : intno (self Scenario.scripted) <> IdNone) by discriminate.
  assert (Hf : picklable (Toy.TFunc Toy.FnLen)) by discriminate.
  assert (Ha : picklable (Toy.TTuple [x01; x02; x03])) by discriminate.
  assert (Hk : picklable (kwargs_or_empty (Obj := Toy.TObj) None)) by discriminate.
  assert (Hsize : Z.of_nat (length (stream [Toy.TFunc Toy.FnLen;
                                            Toy.TTuple [x01; x02; x03];
                                            kwargs_or_empty None]))
                  < BFSZ - RET_OFFSET)
    by (vm_compute; reflexivity).
  exact (script_callable_is_reimported (Toy.TFunc (Toy.FnMain "f" 11))
           (Toy.TFunc Toy.FnLen) (Toy.TTuple [x01; x02; x03]) None Scenario.scripted 0
           "job.py" Hi eq_refl eq_refl eq_refl eq_refl eq_refl Hf Ha Hk Hsize).
Defined.

Lemma handle_module_imports_once_witness :
  exists st',
    _handle_module (Some "toylib") Scenario.session_shipped = (Ok tt, st')
    /\ source_handled (self st')
       = Bound (<[ "toylib" := CModule ]> {[ "f" := CHash 11 ]})
    /\ w_trace (world st')
       = w_trace (world Scenario.session_shipped)
         ++ [EvRun (IdNum 1) (CodeImport "toylib")]
    /\ _handle_module (Some "toylib") st' = (Ok tt, st').
Proof.
  assert (Hnew : "toylib" ∉ dom ({[ "f" := CHash 11 ]} : gmap string CacheVal))
    by set_solver.
  assert (Hlive : 1%nat ∈ w_live (world Scenario.session_shipped)) by set_solver.
  assert (Hidle : 1%nat ∉ w_running (world Scenario.session_shipped)) by set_solver.
  exact (handle_module_imports_once "toylib" Scenario.session_shipped 1
           {[ "f" := CHash 11 ]} eq_refl eq_refl Hnew eq_refl Hlive Hidle eq_refl).
Defined.

Lemma rejected_source_cancels_call_witness :
  exists st',
    execute (Toy.TFunc (Toy.FnMain "f" 11)) (Toy.TTuple [x01]) None
            Scenario.session_rejecting
    = (Raise (RunFailedError "SyntaxError"), st')
    /\ source_handled (self st') = Bound ∅
    /\ map (self st') = map (self Scenario.session_rejecting)
    /\ exception (self st') = exception (self Scenario.session_rejecting)
    /\ (forall i, w_shm (world st') i = w_shm (world Scenario.session_rejecting) i)
    /\ w_trace (world st')
       = w_trace (world Scenario.session_rejecting)
         ++ [EvRun (IdNum 1) (CodeSource "def f(*a): return {}")].
Proof.
  assert (Hlive : 1%nat ∈ w_live (world Scenario.session_rejecting)) by set_solver.
  assert (Hidle : 1%nat ∉ w_running (world Scenario.session_rejecting)) by set_solver.
  exact (rejected_source_cancels_call (Toy.TFunc (Toy.FnMain "f" 11)) (Toy.TTuple [x01])
           None Scenario.session_rejecting 1 "def f(*a): return {}" "SyntaxError"
           eq_refl Hlive Hidle eq_refl eq_refl eq_refl eq_refl eq_refl).
Defined.


